(** * The Kismet external helper interface ([kis_external.cc])

    A shallow embedding of [kis_external_interface], the endpoint that
    talks to an external helper over a pipe pair, a TCP socket or a
    delegated write callback, and the properties its specification
    states about it.

    The endpoint's members are a record; its member functions are
    computations in a state monad over the endpoint together with the
    ordered log of the calls it makes into its collaborators (event bus,
    timer service, IPC registry, HTTP server, asio descriptors, message
    bus).  Those collaborators live outside [kis_external.cc]; whatever
    they return to the endpoint is read from the environment records
    [protobuf_codec], [posix_env] and [host_services].

    The endpoint mutex [ext_mutex] is not modelled: every member function
    is one atomic step of the model. *)

From Stdlib Require Import String Ascii.
From Stdlib Require Import ZArith NArith List Bool Lia.
From Stdlib.Strings Require Import Byte.
From Stdlib Require Import DecimalString.
Import ListNotations.

Local Open Scope string_scope.
Local Open Scope Z_scope.

(** ** Machine integers and bytes *)

(** [uint32_t] arithmetic wraps modulo 2^32. *)
Definition UINT32_MOD : Z := 4294967296.
Definition UINT32_MAX : Z := 4294967295.

Definition wrap32 (x : Z) : Z := x mod UINT32_MOD.

Definition byte_of_Z (x : Z) : byte :=
  match Byte.of_N (Z.to_N (x mod 256)) with
  | Some b => b
  | None => x00
  end.

(** [kis_hton32] followed by a store: the four bytes in network order. *)
Definition kis_hton32 (x : Z) : list byte :=
  let x := wrap32 x in
  [ byte_of_Z (Z.shiftr x 24); byte_of_Z (Z.shiftr x 16);
    byte_of_Z (Z.shiftr x 8); byte_of_Z x ].

(** ** Protocol messages (the accessors the endpoint uses) *)

Module KismetExternal.
Record Command : Type := mkCommand {
  command : string;
  seqno : Z;
  content : string
}.
(** A freshly constructed [Command]: every field at its default. *)
Definition new_Command : Command := mkCommand "" 0 "".
Definition set_command (v : string) (c : Command) : Command :=
  mkCommand v (seqno c) (content c).
Definition set_seqno (v : Z) (c : Command) : Command :=
  mkCommand (command c) v (content c).
Definition set_content (v : string) (c : Command) : Command :=
  mkCommand (command c) (seqno c) v.

Record MsgbusMessage : Type := mkMsgbusMessage {
  msgtext : string;
  msgtype : Z
}.
Inductive Ping : Type := mkPing.
Record Pong : Type := mkPong { ping_seqno : Z }.
Record ExternalShutdown : Type := mkExternalShutdown { reason : string }.
End KismetExternal.

Module KismetEventBus.
Record EventbusRegisterListener : Type := mkEventbusRegisterListener {
  event : list string
}.
Record EventbusPublishEvent : Type := mkEventbusPublishEvent {
  event_type : string;
  event_content_json : string
}.
Record EventbusEvent : Type := mkEventbusEvent { event_json : string }.
End KismetEventBus.

Module KismetExternalHttp.
Record HttpRegisterUri : Type := mkHttpRegisterUri {
  uri : string;
  method : string
}.
Record SubHttpHeader : Type := mkSubHttpHeader {
  header : string;
  hcontent : string
}.
(** Optional fields are [option]s: [has_f] is [Some], and the getter of
    an absent field gives the default. *)
Record HttpResponse : Type := mkHttpResponse {
  req_id : Z;
  header_content : list SubHttpHeader;
  opt_resultcode : option Z;
  opt_content : option string;
  opt_close_response : option bool
}.
Definition has_resultcode (r : HttpResponse) : bool :=
  match opt_resultcode r with Some _ => true | None => false end.
Definition resultcode (r : HttpResponse) : Z :=
  match opt_resultcode r with Some v => v | None => 0 end.
Definition has_content (r : HttpResponse) : bool :=
  match opt_content r with Some _ => true | None => false end.
Definition content (r : HttpResponse) : string :=
  match opt_content r with Some v => v | None => "" end.
Definition has_close_response (r : HttpResponse) : bool :=
  match opt_close_response r with Some _ => true | None => false end.
Definition close_response (r : HttpResponse) : bool :=
  match opt_close_response r with Some v => v | None => false end.

Inductive HttpAuthTokenRequest : Type := mkHttpAuthTokenRequest.
Record HttpRequest : Type := mkHttpRequest {
  rq_req_id : Z;
  rq_uri : string;
  rq_method : string;
  variable_data : list (string * string)
}.
Record HttpAuthToken : Type := mkHttpAuthToken { token : string }.
End KismetExternalHttp.

(** ** Calls into the collaborators *)

(** The three asio objects of an endpoint. *)
Inductive stream : Type := IPC_IN | IPC_OUT | TCPSOCKET.

Inductive signal : Type := SIGTERM | SIGKILL.

(** A [boost::system::error_code]: no error, or the error's value, as far
    as the endpoint tells values apart, and its [message()]. *)
Inductive error_value : Type := operation_aborted | eof | other_error.

Inductive error_code : Type :=
| ec_success
| ec_error (value : error_value) (message : string).

(** One constructor per call that leaves the endpoint.  Sessions are named
    by the handles of their connection and of their locker. *)
Inductive call : Type :=
| MSG (text : string) (flags : Z)
| eventbus_remove_listener (id : Z)
| eventbus_register_listener (channel : string)
| eventbus_publish (type json : string)
| response_stream_cancel (connection : Z)
| response_stream_put_data (connection : Z) (data : string)
| response_stream_complete (connection : Z)
| connection_append_header (connection : Z) (header value : string)
| connection_set_status (connection : Z) (status : Z)
| connection_set_closure_cb (connection : Z) (locker : Z)
| locker_lock (locker : Z)
| locker_unlock (locker : Z) (data : option Z)
| locker_block_until (locker : Z)
| timetracker_remove_timer (id : Z)
| ipctracker_register_ipc (pid : Z)
| ipctracker_remove_ipc (pid : Z)
| sys_kill (pid : Z) (sig : signal)
| sys_close (fd : Z)
| stream_cancel (s : stream)
| stream_close (s : stream)
| async_read (s : stream)
| async_write (s : stream) (frame : list byte)
| call_write_cb (frame : list byte)
| httpd_register_route (uri method : string)
| httpd_create_auth (name : string)
| child_execvp (argv : list string)
| virtual_handle_error (error : string).

(** ** Environment *)

Record protobuf_codec : Type := {
  parse_MsgbusMessage : string -> option KismetExternal.MsgbusMessage;
  parse_Pong : string -> option KismetExternal.Pong;
  parse_ExternalShutdown : string -> option KismetExternal.ExternalShutdown;
  parse_EventbusRegisterListener :
    string -> option KismetEventBus.EventbusRegisterListener;
  parse_EventbusPublishEvent :
    string -> option KismetEventBus.EventbusPublishEvent;
  parse_HttpRegisterUri : string -> option KismetExternalHttp.HttpRegisterUri;
  parse_HttpResponse : string -> option KismetExternalHttp.HttpResponse;
  parse_HttpAuthTokenRequest :
    string -> option KismetExternalHttp.HttpAuthTokenRequest;
  serialize_Command : KismetExternal.Command -> string;
  serialize_Ping : KismetExternal.Ping -> string;
  serialize_Pong : KismetExternal.Pong -> string;
  serialize_ExternalShutdown : KismetExternal.ExternalShutdown -> string;
  serialize_EventbusEvent : KismetEventBus.EventbusEvent -> string;
  serialize_HttpRequest : KismetExternalHttp.HttpRequest -> string;
  serialize_HttpAuthToken : KismetExternalHttp.HttpAuthToken -> string
}.

Record stat_t : Type := mk_stat { st_mode : Z; st_uid : Z; st_gid : Z }.

Record posix_env : Type := {
  (** [stat(path)]: [None] when it returns -1. *)
  stat : string -> option stat_t;
  getuid : Z;
  getgid : Z;
  (** the supplementary groups; [None] when [getgroups] fails *)
  getgroups : option (list Z);
  (** the n-th [pipe()] call of [run_ipc]: (read end, write end) *)
  pipe : nat -> option (Z * Z);
  (** [fork()]: negative on failure, 0 in the child, the pid in the parent *)
  fork : Z;
  kis_strerror_r : string;
  (** [time(0)], which may depend on what happened so far *)
  time : list call -> Z
}.

Record host_services : Type := {
  KIS_EXTERNAL_PROTO_SIG : Z;
  adler32_checksum : list byte -> Z;
  MSGFLAG_INFO : Z;
  MSGFLAG_ERROR : Z;
  (** [kismet_config->fetch_opt_vec] *)
  fetch_opt_vec : string -> list string;
  (** [kismet_config->expand_log_path(path, "", "", 0, 1)] *)
  expand_log_path : string -> string;
  (** the id [eventbus->register_listener] hands out *)
  register_listener_id : list call -> string -> Z;
  (** the token [httpd->create_auth] mints *)
  create_auth_token : list call -> string;
  (** [json_adapter::pack] of an event, the event named by its JSON *)
  json_pack : string -> string;
  (** [Some what] when the HTTP server's connection throws a
      [std::runtime_error] on this [append_header] or [set_status], given
      what happened so far *)
  connection_throws : list call -> call -> option string
}.

(** POSIX [st_mode] masks, in octal 0170000, 0040000, 0100 and 0001. *)
Definition S_IFMT : Z := 61440.
Definition S_IFDIR : Z := 16384.
Definition S_IXUSR : Z := 64.
Definition S_IXOTH : Z := 1.
Definition S_ISDIR (mode : Z) : bool := Z.land mode S_IFMT =? S_IFDIR.

(** ** Endpoint state *)

(** An asio stream object: the native descriptor when open. *)
Definition descriptor : Type := option Z.
Definition is_open (d : descriptor) : bool :=
  match d with Some _ => true | None => false end.

(** [kis_external_http_session]: two handles to host objects. *)
Record kis_external_http_session : Type := mk_session {
  connection : Z;
  locker : Z
}.

(** The members of the class.  [ipc_pid] is [ipc.pid]; [write_cb] and
    [closure_cb] say whether a callback is installed; the two [std::map]s
    are association lists in iteration (key) order. *)
Record kis_external_interface : Type := mk_kis_external_interface {
  stopped : bool;
  cancelled : bool;
  seqno : Z;
  last_pong : Z;
  ping_timer_id : Z;
  ipc_in : descriptor;
  ipc_out : descriptor;
  tcpsocket : descriptor;
  ipc_pid : Z;
  in_buf : list byte;
  write_cb : bool;
  closure_cb : bool;
  eventbus_callback_map : list (string * Z);
  http_proxy_session_map : list (Z * kis_external_http_session);
  http_session_id : Z;
  external_binary : string;
  external_binary_args : list string
}.

Definition set_stopped (v : bool) (e : kis_external_interface) :=
  mk_kis_external_interface v (cancelled e) (seqno e) (last_pong e)
    (ping_timer_id e) (ipc_in e) (ipc_out e) (tcpsocket e) (ipc_pid e)
    (in_buf e) (write_cb e) (closure_cb e) (eventbus_callback_map e)
    (http_proxy_session_map e) (http_session_id e) (external_binary e)
    (external_binary_args e).

Definition set_cancelled (v : bool) (e : kis_external_interface) :=
  mk_kis_external_interface (stopped e) v (seqno e) (last_pong e)
    (ping_timer_id e) (ipc_in e) (ipc_out e) (tcpsocket e) (ipc_pid e)
    (in_buf e) (write_cb e) (closure_cb e) (eventbus_callback_map e)
    (http_proxy_session_map e) (http_session_id e) (external_binary e)
    (external_binary_args e).

Definition set_seqno (v : Z) (e : kis_external_interface) :=
  mk_kis_external_interface (stopped e) (cancelled e) v (last_pong e)
    (ping_timer_id e) (ipc_in e) (ipc_out e) (tcpsocket e) (ipc_pid e)
    (in_buf e) (write_cb e) (closure_cb e) (eventbus_callback_map e)
    (http_proxy_session_map e) (http_session_id e) (external_binary e)
    (external_binary_args e).

Definition set_last_pong (v : Z) (e : kis_external_interface) :=
  mk_kis_external_interface (stopped e) (cancelled e) (seqno e) v
    (ping_timer_id e) (ipc_in e) (ipc_out e) (tcpsocket e) (ipc_pid e)
    (in_buf e) (write_cb e) (closure_cb e) (eventbus_callback_map e)
    (http_proxy_session_map e) (http_session_id e) (external_binary e)
    (external_binary_args e).

Definition set_ipc_in (v : descriptor) (e : kis_external_interface) :=
  mk_kis_external_interface (stopped e) (cancelled e) (seqno e)
    (last_pong e) (ping_timer_id e) v (ipc_out e) (tcpsocket e) (ipc_pid e)
    (in_buf e) (write_cb e) (closure_cb e) (eventbus_callback_map e)
    (http_proxy_session_map e) (http_session_id e) (external_binary e)
    (external_binary_args e).

Definition set_ipc_out (v : descriptor) (e : kis_external_interface) :=
  mk_kis_external_interface (stopped e) (cancelled e) (seqno e)
    (last_pong e) (ping_timer_id e) (ipc_in e) v (tcpsocket e) (ipc_pid e)
    (in_buf e) (write_cb e) (closure_cb e) (eventbus_callback_map e)
    (http_proxy_session_map e) (http_session_id e) (external_binary e)
    (external_binary_args e).

Definition set_tcpsocket (v : descriptor) (e : kis_external_interface) :=
  mk_kis_external_interface (stopped e) (cancelled e) (seqno e)
    (last_pong e) (ping_timer_id e) (ipc_in e) (ipc_out e) v (ipc_pid e)
    (in_buf e) (write_cb e) (closure_cb e) (eventbus_callback_map e)
    (http_proxy_session_map e) (http_session_id e) (external_binary e)
    (external_binary_args e).

Definition set_ipc_pid (v : Z) (e : kis_external_interface) :=
  mk_kis_external_interface (stopped e) (cancelled e) (seqno e)
    (last_pong e) (ping_timer_id e) (ipc_in e) (ipc_out e) (tcpsocket e) v
    (in_buf e) (write_cb e) (closure_cb e) (eventbus_callback_map e)
    (http_proxy_session_map e) (http_session_id e) (external_binary e)
    (external_binary_args e).

Definition set_in_buf (v : list byte) (e : kis_external_interface) :=
  mk_kis_external_interface (stopped e) (cancelled e) (seqno e)
    (last_pong e) (ping_timer_id e) (ipc_in e) (ipc_out e) (tcpsocket e)
    (ipc_pid e) v (write_cb e) (closure_cb e) (eventbus_callback_map e)
    (http_proxy_session_map e) (http_session_id e) (external_binary e)
    (external_binary_args e).

Definition set_write_cb (v : bool) (e : kis_external_interface) :=
  mk_kis_external_interface (stopped e) (cancelled e) (seqno e)
    (last_pong e) (ping_timer_id e) (ipc_in e) (ipc_out e) (tcpsocket e)
    (ipc_pid e) (in_buf e) v (closure_cb e) (eventbus_callback_map e)
    (http_proxy_session_map e) (http_session_id e) (external_binary e)
    (external_binary_args e).

Definition set_closure_cb (v : bool) (e : kis_external_interface) :=
  mk_kis_external_interface (stopped e) (cancelled e) (seqno e)
    (last_pong e) (ping_timer_id e) (ipc_in e) (ipc_out e) (tcpsocket e)
    (ipc_pid e) (in_buf e) (write_cb e) v (eventbus_callback_map e)
    (http_proxy_session_map e) (http_session_id e) (external_binary e)
    (external_binary_args e).

Definition set_eventbus_callback_map (v : list (string * Z)) (e : kis_external_interface) :=
  mk_kis_external_interface (stopped e) (cancelled e) (seqno e)
    (last_pong e) (ping_timer_id e) (ipc_in e) (ipc_out e) (tcpsocket e)
    (ipc_pid e) (in_buf e) (write_cb e) (closure_cb e) v
    (http_proxy_session_map e) (http_session_id e) (external_binary e)
    (external_binary_args e).

Definition set_http_proxy_session_map (v : list (Z * kis_external_http_session)) (e : kis_external_interface) :=
  mk_kis_external_interface (stopped e) (cancelled e) (seqno e)
    (last_pong e) (ping_timer_id e) (ipc_in e) (ipc_out e) (tcpsocket e)
    (ipc_pid e) (in_buf e) (write_cb e) (closure_cb e)
    (eventbus_callback_map e) v (http_session_id e) (external_binary e)
    (external_binary_args e).

Definition set_http_session_id (v : Z) (e : kis_external_interface) :=
  mk_kis_external_interface (stopped e) (cancelled e) (seqno e)
    (last_pong e) (ping_timer_id e) (ipc_in e) (ipc_out e) (tcpsocket e)
    (ipc_pid e) (in_buf e) (write_cb e) (closure_cb e)
    (eventbus_callback_map e) (http_proxy_session_map e) v
    (external_binary e) (external_binary_args e).

(** ** The state monad of member functions *)

(** The endpoint and, oldest first, the calls it has made so far. *)
Record world : Type := mk_world {
  self : kis_external_interface;
  calls : list call
}.

Definition M (A : Type) : Type := world -> A * world.

Definition ret {A : Type} (a : A) : M A := fun w => (a, w).

Definition bind {A B : Type} (m : M A) (k : A -> M B) : M B :=
  fun w => let (a, w') := m w in k a w'.

Notation "x <- m ;; k" := (bind m (fun x => k))
  (at level 61, m at next level, right associativity).
Notation "m ;; k" := (bind m (fun _ => k))
  (at level 61, right associativity).

Definition this : M kis_external_interface := fun w => (self w, w).

Definition modify (f : kis_external_interface -> kis_external_interface)
  : M unit :=
  fun w => (tt, mk_world (f (self w)) (calls w)).

Definition invoke (c : call) : M unit :=
  fun w => (tt, mk_world (self w) (calls w ++ [c])).

Definition history : M (list call) := fun w => (calls w, w).

Fixpoint for_each {A : Type} (l : list A) (body : A -> M unit) : M unit :=
  match l with
  | [] => ret tt
  | x :: rest => body x ;; for_each rest body
  end.

(** What a computation returns, and the world it leaves. *)
Definition result {A : Type} (m : M A) (w : world) : A := fst (m w).
Definition after {A : Type} (m : M A) (w : world) : world := snd (m w).

(** The calls a computation adds to the log. *)
Definition emitted {A : Type} (m : M A) (w : world) : list call :=
  skipn (length (calls w)) (calls (after m w)).

(** ** [std::map] as a list sorted by key *)

Section StdMap.
Context {K V : Type}.
Variable eqb : K -> K -> bool.
Variable ltb : K -> K -> bool.

Fixpoint map_find (k : K) (m : list (K * V)) : option V :=
  match m with
  | [] => None
  | (k', v) :: rest => if eqb k k' then Some v else map_find k rest
  end.

(** [m[k] = v] *)
Fixpoint map_assign (k : K) (v : V) (m : list (K * V)) : list (K * V) :=
  match m with
  | [] => [(k, v)]
  | (k', v') :: rest =>
      if eqb k k' then (k, v) :: rest
      else if ltb k k' then (k, v) :: (k', v') :: rest
      else (k', v') :: map_assign k v rest
  end.

Fixpoint map_erase (k : K) (m : list (K * V)) : list (K * V) :=
  match m with
  | [] => []
  | (k', v') :: rest =>
      if eqb k k' then rest else (k', v') :: map_erase k rest
  end.
End StdMap.

(** [fmt::format("{}", n)] for an integer. *)
Definition fmt_int (n : Z) : string := NilZero.string_of_int (Z.to_int n).

(** ** The member functions *)

(** What [run_ipc] amounts to in the process that called it, or in the
    child that [fork] made: the child calls [execvp] or exits and never
    comes back to the endpoint's code. *)
Inductive run_ipc_result : Type :=
| returns (b : bool)
| in_child.

Section Endpoint.
Variable P : protobuf_codec.
Variable OS : posix_env.
Variable H : host_services.

(** The virtual hooks a concrete driver overrides. *)
Variable handle_error : string -> M unit.
Variable handle_packet : M Z.

Definition _MSG (text : string) (flags : Z) : M unit :=
  invoke (MSG text flags).

Definition _MSG_ERROR (text : string) : M unit :=
  invoke (MSG text (MSGFLAG_ERROR H)).

(** [if (s.is_open()) { try { s.cancel(); s.close(); } catch (...) { } }]
    on an open asio object neither call throws. *)
Definition cancel_and_close (s : stream)
    (get : kis_external_interface -> descriptor)
    (set : descriptor -> kis_external_interface -> kis_external_interface)
  : M unit :=
  e <- this ;;
  if is_open (get e) then
    invoke (stream_cancel s) ;;
    invoke (stream_close s) ;;
    modify (set None)
  else ret tt.

Definition ipc_soft_kill : M unit :=
  modify (set_stopped true) ;;
  modify (set_cancelled true) ;;
  cancel_and_close IPC_IN ipc_in set_ipc_in ;;
  cancel_and_close IPC_OUT ipc_out set_ipc_out ;;
  e <- this ;;
  if 0 <? ipc_pid e then
    invoke (ipctracker_remove_ipc (ipc_pid e)) ;;
    invoke (sys_kill (ipc_pid e) SIGTERM)
  else ret tt.

Definition ipc_hard_kill : M unit :=
  modify (set_stopped true) ;;
  modify (set_cancelled true) ;;
  cancel_and_close IPC_IN ipc_in set_ipc_in ;;
  cancel_and_close IPC_OUT ipc_out set_ipc_out ;;
  e <- this ;;
  if 0 <? ipc_pid e then
    invoke (ipctracker_remove_ipc (ipc_pid e)) ;;
    invoke (sys_kill (ipc_pid e) SIGKILL)
  else ret tt.

Definition close_external : M unit :=
  modify (set_stopped true) ;;
  modify (set_cancelled true) ;;
  e <- this ;;
  for_each (eventbus_callback_map e)
    (fun ebid => invoke (eventbus_remove_listener (snd ebid))) ;;
  for_each (http_proxy_session_map e)
    (fun s =>
       invoke (response_stream_cancel (connection (snd s))) ;;
       invoke (locker_unlock (locker (snd s)) None)) ;;
  invoke (timetracker_remove_timer (ping_timer_id e)) ;;
  ipc_hard_kill ;;
  cancel_and_close TCPSOCKET tcpsocket set_tcpsocket ;;
  modify (set_write_cb false) ;;
  modify (set_closure_cb false).

Definition trigger_error (in_error : string) : M unit :=
  e <- this ;;
  if stopped e then ret tt
  else
    handle_error in_error ;;
    close_external.

Definition handle_read (ec : error_code) (in_amt : Z) : M Z :=
  e <- this ;;
  if stopped e then ret 0
  else if cancelled e then close_external ;; ret 0
  else
    match ec with
    | ec_success => handle_packet
    | ec_error operation_aborted _ =>
        modify (set_stopped true) ;;
        ret (-1)
    | ec_error eof _ =>
        modify (set_stopped true) ;;
        trigger_error "External socket closed" ;;
        ret (-1)
    | ec_error other_error message =>
        modify (set_stopped true) ;;
        _MSG_ERROR
          ("External API handler got error reading data: " ++ message) ;;
        trigger_error message ;;
        ret (-1)
    end.

Definition start_ipc_read : M unit :=
  e <- this ;;
  if stopped e then ret tt else invoke (async_read IPC_IN).

Definition start_tcp_read : M unit :=
  e <- this ;;
  if stopped e then ret tt else invoke (async_read TCPSOCKET).

(** The completion handlers of the two reads; [data] is what the read
    appended to [in_buf]. *)
Definition ipc_read_handler (ec : error_code) (data : list byte) : M unit :=
  modify (fun e => set_in_buf (in_buf e ++ data)%list e) ;;
  r <- handle_read ec (Z.of_nat (length data)) ;;
  if 0 <? r then start_ipc_read else close_external.

Definition tcp_read_handler (ec : error_code) (data : list byte) : M unit :=
  modify (fun e => set_in_buf (in_buf e ++ data)%list e) ;;
  r <- handle_read ec (Z.of_nat (length data)) ;;
  if 0 <=? r then start_tcp_read else ret tt.

Definition attach_tcp_socket (socket : descriptor) : M bool :=
  modify (set_stopped true) ;;
  modify (set_in_buf []) ;;
  e <- this ;;
  if 0 <? ipc_pid e then
    _MSG_ERROR ("Tried to attach a TCP socket to an external endpoint that already has "
                ++ "an IPC instance running.") ;;
    ret false
  else
    modify (set_tcpsocket socket) ;;
    modify (set_stopped false) ;;
    modify (set_cancelled false) ;;
    start_tcp_read ;;
    ret true.

(** The search path: the configured list, or ["%B"] when it is empty. *)
Definition helper_path_of (rp in_binary : string) : string :=
  (expand_log_path H rp ++ "/" ++ in_binary)%string.

Fixpoint check_ipc_loop (in_binary : string) (bin_paths : list string)
  : bool :=
  match bin_paths with
  | [] => false
  | rp :: rest =>
      match stat OS (helper_path_of rp in_binary) with
      | Some fstat =>
          if S_ISDIR (st_mode fstat) then check_ipc_loop in_binary rest
          else if negb (Z.land S_IXUSR (st_mode fstat) =? 0) then true
          else check_ipc_loop in_binary rest
      | None => check_ipc_loop in_binary rest
      end
  end.

Definition check_ipc (in_binary : string) : bool :=
  let bin_paths := fetch_opt_vec H "helper_binary_path" in
  let bin_paths :=
    if (length bin_paths =? 0)%nat then (bin_paths ++ ["%B"])%list
    else bin_paths in
  check_ipc_loop in_binary bin_paths.

(** The search loop of [run_ipc].  [helper_path] is set, and the loop left,
    at the first owner-executable non-directory; [fstat] is then the
    [stat] of that file. *)
Fixpoint find_helper (bin_paths : list string) (in_binary : string)
  : option (string * stat_t) :=
  match bin_paths with
  | [] => None
  | rp :: rest =>
      let fp := helper_path_of rp in_binary in
      match stat OS fp with
      | Some fstat =>
          if S_ISDIR (st_mode fstat) then find_helper rest in_binary
          else if negb (Z.land S_IXUSR (st_mode fstat) =? 0)
               then Some (fp, fstat)
          else find_helper rest in_binary
      | None => find_helper rest in_binary
      end
  end.

(** "See if we can execute the IPC tool": [false] on the path that
    returns with the setgid message. *)
Definition can_execute (fstat : stat_t) : bool :=
  if negb (Z.land (st_mode fstat) S_IXOTH =? 0) then true
  else if negb (getuid OS =? st_uid fstat) && negb (getuid OS =? 0) then
    if negb (getgid OS =? st_gid fstat) then
      match getgroups OS with
      | Some groups =>
          (0 <? Z.of_nat (length groups))
          && existsb (fun g => g =? st_gid fstat) groups
      | None => false
      end
    else true
  else true.

Definition child_argv (helper_path : string) (in_fd out_fd : Z)
    (args : list string) : list string :=
  helper_path :: ("--in-fd=" ++ fmt_int in_fd)%string
    :: ("--out-fd=" ++ fmt_int out_fd)%string :: args.

Definition run_ipc : M run_ipc_result :=
  modify (set_stopped true) ;;
  modify (set_in_buf []) ;;
  e <- this ;;
  if (external_binary e =? "")%string then
    _MSG "Kismet external interface did not have an IPC binary to launch"
      (MSGFLAG_ERROR H) ;;
    ret (returns false)
  else
    let bin_paths := fetch_opt_vec H "helper_binary_path" in
    bin_paths <-
      (if (length bin_paths =? 0)%nat then
         _MSG ("No helper_binary_path found in kismet.conf, make sure your config "
               ++ "files are up to date; using the default binary path where Kismet "
               ++ "is installed.") (MSGFLAG_ERROR H) ;;
         ret (bin_paths ++ ["%B"])%list
       else ret bin_paths) ;;
    match find_helper bin_paths (external_binary e) with
    | None =>
        _MSG_ERROR
          ("Kismet external interface can not find IPC binary for launch: "
           ++ external_binary e) ;;
        ret (returns false)
    | Some (helper_path, fstat) =>
        if negb (can_execute fstat) then
          _MSG_ERROR
            ("IPC cannot run binary '" ++ helper_path
             ++ "', Kismet was installed "
             ++ "setgid and you are not in that group. If you recently added your "
             ++ "user to the kismet group, you will need to log out and back in to "
             ++ "activate it.  You can check your groups with the 'groups' command.") ;;
          ret (returns false)
        else
          match pipe OS 0 with
          | None =>
              _MSG_ERROR
                ("IPC could not create pipe: " ++ kis_strerror_r OS) ;;
              ret (returns false)
          | Some (inpipepair0, inpipepair1) =>
              match pipe OS 1 with
              | None =>
                  _MSG_ERROR
                    ("IPC could not create pipe: " ++ kis_strerror_r OS) ;;
                  invoke (sys_close inpipepair0) ;;
                  invoke (sys_close inpipepair1) ;;
                  ret (returns false)
              | Some (outpipepair0, outpipepair1) =>
                  let child_pid := fork OS in
                  if child_pid <? 0 then
                    _MSG_ERROR
                      ("IPC could not fork(): " ++ kis_strerror_r OS) ;;
                    invoke (sys_close inpipepair0) ;;
                    invoke (sys_close inpipepair1) ;;
                    invoke (sys_close outpipepair0) ;;
                    invoke (sys_close outpipepair1) ;;
                    ret (returns false)
                  else if child_pid =? 0 then
                    invoke (sys_close inpipepair1) ;;
                    invoke (sys_close outpipepair0) ;;
                    invoke (child_execvp
                              (child_argv helper_path inpipepair0
                                 outpipepair1 (external_binary_args e))) ;;
                    ret in_child
                  else
                    invoke (sys_close inpipepair0) ;;
                    invoke (sys_close outpipepair1) ;;
                    modify (set_ipc_out (Some inpipepair1)) ;;
                    modify (set_ipc_in (Some outpipepair0)) ;;
                    modify (set_ipc_pid child_pid) ;;
                    invoke (ipctracker_register_ipc child_pid) ;;
                    modify (set_stopped false) ;;
                    modify (set_cancelled false) ;;
                    start_ipc_read ;;
                    ret (returns true)
              end
          end
    end.

(** Modelled from the spec: the layout of [kismet_external_frame_t], which
    is declared in [kis_external_packet.h]: signature, data_sz,
    data_checksum, then the data.  [frame_buf] is the three header words in
    network order followed by the serialized command. *)
Definition frame_of (c : KismetExternal.Command) : list byte :=
  let data := list_byte_of_string (serialize_Command P c) in
  let content_sz := Z.of_nat (length data) in
  (kis_hton32 (KIS_EXTERNAL_PROTO_SIG H)
   ++ kis_hton32 content_sz
   ++ kis_hton32 (adler32_checksum H data)
   ++ data)%list.

(** The completion handlers of the three kinds of write. *)
Definition write_cb_handler (ec : error_code) : M unit :=
  match ec with
  | ec_success => ret tt
  | ec_error operation_aborted _ => ret tt
  | ec_error _ _ =>
      _MSG_ERROR "Kismet external interface got error writing a packet to a callback interface." ;;
      trigger_error "write failure"
  end.

Definition ipc_write_handler (ec : error_code) : M unit :=
  match ec with
  | ec_success => ret tt
  | ec_error operation_aborted _ => ret tt
  | ec_error _ message =>
      _MSG_ERROR ("Kismet external interface got an error writing a packet to an "
                  ++ "IPC interface: " ++ message) ;;
      trigger_error "write failure"
  end.

Definition tcp_write_handler (ec : error_code) : M unit :=
  match ec with
  | ec_success => ret tt
  | ec_error operation_aborted _ => ret tt
  | ec_error _ message =>
      _MSG_ERROR ("Kismet external interface got an error writing a packet to a "
                  ++ "TCP interface: " ++ message) ;;
      trigger_error "write failure"
  end.

(** [++seqno], and 1 when that wrapped to 0. *)
Definition next_seqno (seqno : Z) : Z :=
  let seqno := wrap32 (seqno + 1) in
  if seqno =? 0 then 1 else seqno.

(** [send_packet] takes a shared pointer: the command it serializes is
    the caller's object after [set_seqno]. *)
Definition send_packet (c : KismetExternal.Command) : M Z :=
  c <- (if KismetExternal.seqno c =? 0 then
          modify (fun e => set_seqno (next_seqno (seqno e)) e) ;;
          e <- this ;;
          ret (KismetExternal.set_seqno (seqno e) c)
        else ret c) ;;
  let frame_buf := frame_of c in
  e <- this ;;
  if write_cb e then
    invoke (call_write_cb frame_buf) ;;
    ret (KismetExternal.seqno c)
  else if is_open (ipc_out e) then
    invoke (async_write IPC_OUT frame_buf) ;;
    ret (KismetExternal.seqno c)
  else if is_open (tcpsocket e) then
    invoke (async_write TCPSOCKET frame_buf) ;;
    ret (KismetExternal.seqno c)
  else
    _MSG_ERROR "Kismet external interface got an error writing packet, no connections" ;;
    trigger_error "no connections" ;;
    ret 0.

Definition send_ping : M Z :=
  let c := KismetExternal.set_command "PING" KismetExternal.new_Command in
  let p := KismetExternal.mkPing in
  let c := KismetExternal.set_content (serialize_Ping P p) c in
  send_packet c.

Definition send_pong (ping_seqno : Z) : M Z :=
  let c := KismetExternal.set_command "PONG" KismetExternal.new_Command in
  let p := KismetExternal.mkPong ping_seqno in
  let c := KismetExternal.set_content (serialize_Pong P p) c in
  send_packet c.

Definition send_shutdown (reason : string) : M Z :=
  let c :=
    KismetExternal.set_command "SHUTDOWN" KismetExternal.new_Command in
  let s := KismetExternal.mkExternalShutdown reason in
  let c := KismetExternal.set_content (serialize_ExternalShutdown P s) c in
  send_packet c.

Definition proxy_event (evt : string) : M unit :=
  let c := KismetExternal.set_command "EVENT" KismetExternal.new_Command in
  let ebe := KismetEventBus.mkEventbusEvent (json_pack H evt) in
  let c := KismetExternal.set_content (serialize_EventbusEvent P ebe) c in
  send_packet c ;;
  ret tt.

Definition send_http_request (in_http_sequence : Z) (in_uri : string)
    (in_method : string) (in_vardata : list (string * string)) : M Z :=
  let c :=
    KismetExternal.set_command "HTTPREQUEST" KismetExternal.new_Command in
  let r :=
    KismetExternalHttp.mkHttpRequest in_http_sequence in_uri in_method
      in_vardata in
  let c := KismetExternal.set_content (serialize_HttpRequest P r) c in
  send_packet c.

Definition send_http_auth (in_cookie : string) : M Z :=
  let c :=
    KismetExternal.set_command "HTTPAUTH" KismetExternal.new_Command in
  let a := KismetExternalHttp.mkHttpAuthToken in_cookie in
  let c := KismetExternal.set_content (serialize_HttpAuthToken P a) c in
  send_packet c.

(** *** Inbound handlers *)

Definition handle_msg_proxy (msg : string) (msgtype : Z) : M unit :=
  _MSG msg msgtype.

Definition handle_packet_message (in_seqno : Z) (in_content : string)
  : M unit :=
  match parse_MsgbusMessage P in_content with
  | None =>
      _MSG "Kismet external interface got an unparsable MESSAGE"
        (MSGFLAG_ERROR H) ;;
      trigger_error "Invalid MESSAGE"
  | Some m =>
      handle_msg_proxy (KismetExternal.msgtext m) (KismetExternal.msgtype m)
  end.

Definition handle_packet_ping (in_seqno : Z) (in_content : string)
  : M unit :=
  send_pong in_seqno ;;
  ret tt.

Definition handle_packet_pong (in_seqno : Z) (in_content : string)
  : M unit :=
  match parse_Pong P in_content with
  | None =>
      _MSG "Kismet external interface got an unparsable PONG packet"
        (MSGFLAG_ERROR H) ;;
      trigger_error "Invalid PONG"
  | Some p =>
      h <- history ;;
      modify (set_last_pong (time OS h))
  end.

Definition handle_packet_shutdown (in_seqno : Z) (in_content : string)
  : M unit :=
  match parse_ExternalShutdown P in_content with
  | None =>
      _MSG "Kismet external interface got an unparsable SHUTDOWN"
        (MSGFLAG_ERROR H) ;;
      trigger_error "invalid SHUTDOWN"
  | Some s =>
      _MSG ("Kismet external interface shutting down: "
            ++ KismetExternal.reason s) (MSGFLAG_INFO H) ;;
      trigger_error ("Remote connection requesting shutdown: "
                     ++ KismetExternal.reason s)
  end.

Definition handle_packet_eventbus_register (in_seqno : Z)
    (in_content : string) : M unit :=
  match parse_EventbusRegisterListener P in_content with
  | None =>
      _MSG_ERROR
        "Kismet external interface got an unparseable EVENTBUSREGISTER" ;;
      trigger_error "Invalid EVENTBUSREGISTER"
  | Some evtlisten =>
      for_each (KismetEventBus.event evtlisten)
        (fun ev =>
           e <- this ;;
           match map_find String.eqb ev (eventbus_callback_map e) with
           | Some k => invoke (eventbus_remove_listener k)
           | None => ret tt
           end ;;
           h <- history ;;
           let eid := register_listener_id H h ev in
           invoke (eventbus_register_listener ev) ;;
           modify (fun e =>
                     set_eventbus_callback_map
                       (map_assign String.eqb String.ltb ev eid
                          (eventbus_callback_map e)) e))
  end.

Definition handle_packet_eventbus_publish (in_seqno : Z)
    (in_content : string) : M unit :=
  match parse_EventbusPublishEvent P in_content with
  | None =>
      _MSG_ERROR
        "Kismet external interface got unparseable EVENTBUSPUBLISH" ;;
      trigger_error "Invalid EVENTBUSPUBLISH"
  | Some evtpub =>
      invoke (eventbus_publish (KismetEventBus.event_type evtpub)
                (KismetEventBus.event_content_json evtpub))
  end.

(** The route handler that [handle_packet_http_register] installs, up to
    the point where it blocks on the session's locker.  The locker is a new
    object; its handle is the session id about to be taken. *)
Definition http_route_handler (con : Z) (con_uri con_verb : string)
    (http_variables : list (string * string)) : M Z :=
  e <- this ;;
  let session := mk_session con (http_session_id e) in
  invoke (locker_lock (locker session)) ;;
  let sess_id := http_session_id e in
  modify (set_http_session_id (wrap32 (sess_id + 1))) ;;
  modify (fun e =>
            set_http_proxy_session_map
              (map_assign Z.eqb Z.ltb sess_id session
                 (http_proxy_session_map e)) e) ;;
  let var_remap :=
    fold_left (fun m v => map_assign String.eqb String.ltb (fst v) (snd v) m)
      http_variables [] in
  send_http_request sess_id con_uri con_verb var_remap ;;
  invoke (connection_set_closure_cb con (locker session)) ;;
  invoke (locker_block_until (locker session)) ;;
  ret sess_id.

(** The closure callback installed on the connection. *)
Definition http_connection_closure (session : kis_external_http_session)
  : M unit :=
  invoke (locker_unlock (locker session) (Some (-1))).

(** The rest of the route handler, once the locker has let it through. *)
Definition http_route_handler_wake (sess_id : Z) : M unit :=
  modify (fun e =>
            set_http_proxy_session_map
              (map_erase Z.eqb sess_id (http_proxy_session_map e)) e).

Definition handle_packet_http_register (in_seqno : Z) (in_content : string)
  : M unit :=
  match parse_HttpRegisterUri P in_content with
  | None =>
      _MSG "Kismet external interface got an unparsable HTTPREGISTERURI"
        (MSGFLAG_ERROR H) ;;
      trigger_error "Invalid HTTPREGISTERURI"
  | Some uri =>
      invoke (httpd_register_route (KismetExternalHttp.uri uri)
                (KismetExternalHttp.method uri))
  end.

(** A call on the HTTP connection inside a [try]: [Some what] when it
    throws, and then it has not taken place. *)
Definition try_connection (c : call) : M (option string) :=
  h <- history ;;
  match connection_throws H h c with
  | Some what => ret (Some what)
  | None => invoke c ;; ret None
  end.

(** The header loop inside its [try]: it ends at the first call that
    throws. *)
Fixpoint append_headers (con : Z)
    (headers : list KismetExternalHttp.SubHttpHeader)
  : M (option string) :=
  match headers with
  | [] => ret None
  | hh :: rest =>
      thrown <- try_connection
                  (connection_append_header con
                     (KismetExternalHttp.header hh)
                     (KismetExternalHttp.hcontent hh)) ;;
      match thrown with
      | Some what => ret (Some what)
      | None => append_headers con rest
      end
  end.

Definition handle_packet_http_response (in_seqno : Z) (in_content : string)
  : M unit :=
  match parse_HttpResponse P in_content with
  | None =>
      _MSG "Kismet external interface got an unparsable HTTPRESPONSE"
        (MSGFLAG_ERROR H) ;;
      trigger_error "Invalid  HTTPRESPONSE"
  | Some resp =>
      e <- this ;;
      match map_find Z.eqb (KismetExternalHttp.req_id resp)
              (http_proxy_session_map e) with
      | None =>
          _MSG "Kismet external interface got a HTTPRESPONSE for an unknown session"
            (MSGFLAG_ERROR H) ;;
          trigger_error "Invalid HTTPRESPONSE session"
      | Some session =>
          thrown <- append_headers (connection session)
                      (KismetExternalHttp.header_content resp) ;;
          match thrown with
          | Some what =>
              _MSG_ERROR
                ("Kismet external interface failed setting HTTPRESPONSE headers - "
                 ++ what) ;;
              trigger_error "Invalid HTTPRESPONSE header block"
          | None =>
              thrown <-
                (if KismetExternalHttp.has_resultcode resp then
                   try_connection
                     (connection_set_status (connection session)
                        (KismetExternalHttp.resultcode resp))
                 else ret None) ;;
              match thrown with
              | Some what =>
                  _MSG_ERROR
                    ("Kismet external interface failed setting HTTPRESPONSE status code- "
                     ++ what) ;;
                  trigger_error "invalid HTTPRESPONSE status code"
              | None =>
                  (if KismetExternalHttp.has_content resp
                      && (0 <? Z.of_nat
                                 (String.length
                                    (KismetExternalHttp.content resp)))
                   then
                     invoke (response_stream_put_data (connection session)
                               (KismetExternalHttp.content resp))
                   else ret tt) ;;
                  if KismetExternalHttp.has_close_response resp
                     && KismetExternalHttp.close_response resp
                  then
                    invoke (response_stream_complete (connection session)) ;;
                    invoke (locker_unlock (locker session) None)
                  else ret tt
              end
          end
      end
  end.

Definition handle_packet_http_auth_request (in_seqno : Z)
    (in_content : string) : M unit :=
  match parse_HttpAuthTokenRequest P in_content with
  | None =>
      _MSG "Kismet external interface got an unparsable HTTPAUTHREQ"
        (MSGFLAG_ERROR H) ;;
      trigger_error "Invalid HTTPAUTHREQ"
  | Some rt =>
      h <- history ;;
      let token := create_auth_token H h in
      invoke (httpd_create_auth "external") ;;
      send_http_auth token ;;
      ret tt
  end.

Definition dispatch_rx_packet (c : KismetExternal.Command) : M bool :=
  let command := KismetExternal.command c in
  let seqno := KismetExternal.seqno c in
  let content := KismetExternal.content c in
  if (command =? "MESSAGE")%string then
    handle_packet_message seqno content ;; ret true
  else if (command =? "PING")%string then
    handle_packet_ping seqno content ;; ret true
  else if (command =? "PONG")%string then
    handle_packet_pong seqno content ;; ret true
  else if (command =? "SHUTDOWN")%string then
    handle_packet_shutdown seqno content ;; ret true
  else if (command =? "HTTPREGISTERURI")%string then
    handle_packet_http_register seqno content ;; ret true
  else if (command =? "HTTPRESPONSE")%string then
    handle_packet_http_response seqno content ;; ret true
  else if (command =? "HTTPAUTHREQ")%string then
    handle_packet_http_auth_request seqno content ;; ret true
  else if (command =? "EVENTBUSREGISTER")%string then
    handle_packet_eventbus_register seqno content ;; ret true
  else if (command =? "EVENTBUSPUBLISH")%string then
    handle_packet_eventbus_publish seqno content ;; ret true
  else ret false.

End Endpoint.

(** ** Notions the statements below use *)

(** Some way to write is there: a delegated callback, the pipe to the
    child, or the attached socket. *)
Definition has_transport (e : kis_external_interface) : bool :=
  write_cb e || is_open (ipc_out e) || is_open (tcpsocket e).

(** The one write [send_packet] makes for a frame, by the same order of
    preference. *)
Definition write_of (e : kis_external_interface) (frame : list byte) : call :=
  if write_cb e then call_write_cb frame
  else if is_open (ipc_out e) then async_write IPC_OUT frame
  else async_write TCPSOCKET frame.

(** Calls that start I/O on a transport. *)
Definition starts_io (c : call) : bool :=
  match c with
  | async_read _ | async_write _ _ | call_write_cb _ => true
  | _ => false
  end.

Definition is_async_read (c : call) : bool :=
  match c with
  | async_read _ => true
  | _ => false
  end.

Definition signals_child (c : call) : bool :=
  match c with
  | sys_kill _ _ | ipctracker_remove_ipc _ => true
  | _ => false
  end.

(** Reads and writes posted on one of the two pipes to the child. *)
Definition uses_pipe (c : call) : bool :=
  match c with
  | async_read IPC_IN | async_read IPC_OUT => true
  | async_write IPC_IN _ | async_write IPC_OUT _ => true
  | _ => false
  end.

(** The fields the single-transport property speaks of. *)
Definition same_flags_buffer_transport (e e' : kis_external_interface)
  : Prop :=
  stopped e' = stopped e /\ cancelled e' = cancelled e
  /\ in_buf e' = in_buf e
  /\ ipc_in e' = ipc_in e /\ ipc_out e' = ipc_out e
  /\ tcpsocket e' = tcpsocket e.

Section Sends.
Variable P : protobuf_codec.
Variable H : host_services.
Variable handle_error : string -> M unit.

(** The world after the sends of [cs 0], ..., [cs (n-1)], in a row. *)
Definition after_sends (cs : N -> KismetExternal.Command) (n : N)
    (w : world) : world :=
  N.peano_rect (fun _ => world) w
    (fun k wk => after (send_packet P H handle_error (cs k)) wk) n.

(** What the send of [cs k] returns, the earlier ones done. *)
Definition assigned (cs : N -> KismetExternal.Command) (k : N) (w : world)
  : Z :=
  result (send_packet P H handle_error (cs k)) (after_sends cs k w).

(** The seqnos of the first [n] sends are pairwise distinct. *)
Definition distinct_seqnos (cs : N -> KismetExternal.Command) (n : N)
    (w : world) : Prop :=
  forall i j : N, (i < j)%N -> (j < n)%N -> assigned cs i w <> assigned cs j w.
End Sends.

(** The calls of [close_external] on endpoint [e], in order. *)
Definition close_pipe_calls (s : stream) (d : descriptor) : list call :=
  if is_open d then [stream_cancel s; stream_close s] else [].

Definition kill_calls (sig : signal) (e : kis_external_interface)
  : list call :=
  (close_pipe_calls IPC_IN (ipc_in e)
   ++ close_pipe_calls IPC_OUT (ipc_out e)
   ++ (if 0 <? ipc_pid e
       then [ipctracker_remove_ipc (ipc_pid e); sys_kill (ipc_pid e) sig]
       else []))%list.

Definition close_external_calls (e : kis_external_interface) : list call :=
  (map (fun ebid => eventbus_remove_listener (snd ebid))
     (eventbus_callback_map e)
   ++ flat_map
        (fun s => [response_stream_cancel (connection (snd s));
                   locker_unlock (locker (snd s)) None])
        (http_proxy_session_map e)
   ++ [timetracker_remove_timer (ping_timer_id e)]
   ++ kill_calls SIGKILL e
   ++ close_pipe_calls TCPSOCKET (tcpsocket e))%list.

(** The connection takes each of [cs] in turn without throwing, from
    history [h] on. *)
Fixpoint accepted (H : host_services) (h : list call) (cs : list call)
  : Prop :=
  match cs with
  | [] => True
  | c :: rest =>
      connection_throws H h c = None /\ accepted H (h ++ [c]) rest
  end.

(** The endpoint after either kill. *)
Definition killed (e : kis_external_interface) : kis_external_interface :=
  set_ipc_out None (set_ipc_in None (set_cancelled true (set_stopped true e))).

(** The endpoint after [close_external]. *)
Definition closed (e : kis_external_interface) : kis_external_interface :=
  set_closure_cb false (set_write_cb false (set_tcpsocket None (killed e))).

(** The kill that delivers [sig]. *)
Definition ipc_kill (sig : signal) : M unit :=
  match sig with
  | SIGTERM => ipc_soft_kill
  | SIGKILL => ipc_hard_kill
  end.

(** The paths searched for a helper: the configured ones, or the single
    token ["%B"] when none is configured. *)
Definition search_paths (H : host_services) : list string :=
  match fetch_opt_vec H "helper_binary_path" with
  | [] => ["%B"]
  | paths => paths
  end.

(** [path] can be [stat]ed, is not a directory, and has the
    owner-execute bit. *)
Definition owner_executable_file (OS : posix_env) (path : string) : Prop :=
  exists fstat,
    stat OS path = Some fstat
    /\ S_ISDIR (st_mode fstat) = false
    /\ Z.testbit (st_mode fstat) 6 = true.

(** The five ways [run_ipc] gives up, on endpoint [e]. *)
Definition run_ipc_gives_up (OS : posix_env) (H : host_services)
    (e : kis_external_interface) : Prop :=
  external_binary e = ""
  \/ match find_helper OS H (search_paths H) (external_binary e) with
     | None => True
     | Some (helper_path, fstat) =>
         can_execute OS fstat = false
         \/ pipe OS 0 = None \/ pipe OS 1 = None \/ fork OS < 0
     end.

(** The calls an HTTPRESPONSE asks for on the session's connection, in
    the order of the handler. *)
Definition header_calls (con : Z)
    (headers : list KismetExternalHttp.SubHttpHeader) : list call :=
  map (fun hh =>
         connection_append_header con (KismetExternalHttp.header hh)
           (KismetExternalHttp.hcontent hh)) headers.

Definition status_calls (con : Z) (resp : KismetExternalHttp.HttpResponse)
  : list call :=
  match KismetExternalHttp.opt_resultcode resp with
  | Some code => [connection_set_status con code]
  | None => []
  end.

Definition body_calls (con : Z) (resp : KismetExternalHttp.HttpResponse)
  : list call :=
  match KismetExternalHttp.opt_content resp with
  | Some data =>
      if (0 <? Z.of_nat (String.length data))
      then [response_stream_put_data con data] else []
  | None => []
  end.

Definition close_calls (session : kis_external_http_session)
    (resp : KismetExternalHttp.HttpResponse) : list call :=
  match KismetExternalHttp.opt_close_response resp with
  | Some true =>
      [response_stream_complete (connection session);
       locker_unlock (locker session) None]
  | _ => []
  end.

(** What the handler tells [trigger_error] when call [c] threw. *)
Definition refusal_error (c : call) : string :=
  match c with
  | connection_set_status _ _ => "invalid HTTPRESPONSE status code"
  | _ => "Invalid HTTPRESPONSE header block"
  end.

Definition refusal_log (c : call) (what : string) : string :=
  match c with
  | connection_set_status _ _ =>
      "Kismet external interface failed setting HTTPRESPONSE status code- "
      ++ what
  | _ =>
      "Kismet external interface failed setting HTTPRESPONSE headers - "
      ++ what
  end.

(** ** Further notions, for the properties beyond the specification *)

(** The nine tags [dispatch_rx_packet] knows. *)
Definition builtin_commands : list string :=
  ["MESSAGE"; "PING"; "PONG"; "SHUTDOWN"; "HTTPREGISTERURI"; "HTTPRESPONSE";
   "HTTPAUTHREQ"; "EVENTBUSREGISTER"; "EVENTBUSPUBLISH"].

(** What [handle_read] logs for an error. *)
Definition read_error_log (H : host_services) (ec : error_code) : list call :=
  match ec with
  | ec_error other_error message =>
      [MSG ("External API handler got error reading data: " ++ message)
         (MSGFLAG_ERROR H)]
  | _ => []
  end.

(** The endpoint after a successful [attach_tcp_socket]. *)
Definition attached (socket : descriptor) (e : kis_external_interface)
  : kis_external_interface :=
  set_cancelled false
    (set_stopped false (set_tcpsocket socket (set_in_buf [] e))).

(** [path] qualifies as a helper: what both search loops test. *)
Definition qualifies (OS : posix_env) (path : string) : bool :=
  match stat OS path with
  | Some fstat =>
      negb (S_ISDIR (st_mode fstat))
      && negb (Z.land S_IXUSR (st_mode fstat) =? 0)
  | None => false
  end.

(** The descriptors given to [::close], in order. *)
Definition closed_fds (cs : list call) : list Z :=
  flat_map (fun c => match c with sys_close fd => [fd] | _ => [] end) cs.



(** The keys of a session table rise strictly, as in a [std::map]. *)
Fixpoint keys_above {V : Type} (lo : Z) (m : list (Z * V)) : Prop :=
  match m with
  | [] => True
  | (k, _) :: rest => lo < k /\ keys_above k rest
  end.

Definition keys_sorted {V : Type} (m : list (Z * V)) : Prop :=
  match m with
  | [] => True
  | (k, _) :: rest => keys_above k rest
  end.

(** The variables of a request as [http_route_handler] forwards them. *)
Definition var_remap (http_variables : list (string * string))
  : list (string * string) :=
  fold_left (fun m v => map_assign String.eqb String.ltb (fst v) (snd v) m)
    http_variables [].

(** The endpoint after [http_route_handler] took session id
    [http_session_id e] for connection [con] and sent its request. *)
Definition parked (con : Z) (e : kis_external_interface)
  : kis_external_interface :=
  let sess_id := http_session_id e in
  set_seqno (next_seqno (seqno e))
    (set_http_proxy_session_map
       (map_assign Z.eqb Z.ltb sess_id (mk_session con sess_id)
          (http_proxy_session_map e))
       (set_http_session_id (wrap32 (sess_id + 1)) e)).

(** ** Fixtures: a small host to run the endpoint in *)

Module Fixture.
Import KismetExternal KismetExternalHttp.

(** The response of the proxy scenario: headers, status, body, close. *)
Definition response : HttpResponse :=
  mkHttpResponse 0 [mkSubHttpHeader "X-T" "v"] (Some 200) (Some "hi")
    (Some true).

(** A codec that knows one encoding per message and rejects the rest. *)
Definition codec : protobuf_codec :=
  {| parse_MsgbusMessage := fun s =>
       if (s =? "m")%string then Some (mkMsgbusMessage "hello" 2) else None;
     parse_Pong := fun s =>
       if (s =? "p")%string then Some (mkPong 1) else None;
     parse_ExternalShutdown := fun s =>
       if (s =? "s")%string then Some (mkExternalShutdown "bye") else None;
     parse_EventbusRegisterListener := fun s =>
       if (s =? "r")%string
       then Some (KismetEventBus.mkEventbusRegisterListener ["TIMESTAMP"])
       else None;
     parse_EventbusPublishEvent := fun s =>
       if (s =? "e")%string
       then Some (KismetEventBus.mkEventbusPublishEvent "T" "{}")
       else None;
     parse_HttpRegisterUri := fun s =>
       if (s =? "u")%string then Some (mkHttpRegisterUri "/x" "GET")
       else None;
     parse_HttpResponse := fun s =>
       if (s =? "h")%string then Some response else None;
     parse_HttpAuthTokenRequest := fun s =>
       if (s =? "a")%string then Some mkHttpAuthTokenRequest else None;
     serialize_Command := fun c =>
       (command c ++ ":" ++ fmt_int (seqno c) ++ ":"
        ++ KismetExternal.content c)%string;
     serialize_Ping := fun _ => "";
     serialize_Pong := fun p => fmt_int (ping_seqno p);
     serialize_ExternalShutdown := fun s => reason s;
     serialize_EventbusEvent := fun e => KismetEventBus.event_json e;
     serialize_HttpRequest := fun r => rq_uri r;
     serialize_HttpAuthToken := fun a => token a |}.

Definition regular_file (mode : Z) : stat_t := mk_stat mode 1000 1000.

(** [/tmp/helper] is a regular file of the given mode; nothing else
    exists; no pipe can be made. *)
Definition os (helper_mode : Z) : posix_env :=
  {| stat := fun path =>
       if (path =? "/tmp/helper")%string
       then Some (regular_file helper_mode) else None;
     getuid := 1000;
     getgid := 1000;
     getgroups := Some [1000];
     pipe := fun _ => None;
     fork := 4242;
     kis_strerror_r := "error";
     time := fun _ => 1700000000 |}.

(** The same, with pipes to be had and [fork] returning [child_pid]. *)
Definition launching_os (child_pid : Z) : posix_env :=
  {| stat := stat (os 33261);
     getuid := 1000;
     getgid := 1000;
     getgroups := Some [1000];
     pipe := fun n => match n with O => Some (3, 4) | _ => Some (5, 6) end;
     fork := child_pid;
     kis_strerror_r := "error";
     time := fun _ => 1700000000 |}.

(** A host whose connections throw as [throws] says. *)
Definition host (throws : call -> option string) : host_services :=
  {| KIS_EXTERNAL_PROTO_SIG := 3735928559;
     adler32_checksum := fun _ => 1;
     MSGFLAG_INFO := 2;
     MSGFLAG_ERROR := 4;
     fetch_opt_vec := fun _ => ["/no"; "/tmp"];
     expand_log_path := fun p => p;
     register_listener_id := fun h _ => Z.of_nat (length h);
     create_auth_token := fun _ => "token";
     json_pack := fun e => e;
     connection_throws := fun _ c => throws c |}.

Definition quiet_host : host_services := host (fun _ => None).

(** A connection on which headers can no longer be set. *)
Definition headers_sent_host : host_services :=
  host (fun c =>
          match c with
          | connection_append_header _ _ _ => Some "headers already sent"
          | _ => None
          end).

(** A driver whose [handle_error] only shows in the log. *)
Definition handle_error (error : string) : M unit :=
  invoke (virtual_handle_error error).

(** A newly constructed endpoint. *)
Definition constructed : kis_external_interface :=
  mk_kis_external_interface true false 0 0 (-1) None None None 0 []
    false false [] [] 0 "" [].

(** A newly constructed endpoint of a driver that launches [helper]. *)
Definition with_helper : kis_external_interface :=
  mk_kis_external_interface true false 0 0 (-1) None None None 0 []
    false false [] [] 0 "helper" ["--source=wlan0"].

(** After a socket was attached. *)
Definition on_tcp : kis_external_interface :=
  set_tcpsocket (Some 7) (set_stopped false constructed).

(** After [run_ipc] launched child 4242, with bytes waiting. *)
Definition on_ipc : kis_external_interface :=
  set_in_buf [x01]
    (set_ipc_pid 4242
       (set_ipc_in (Some 5) (set_ipc_out (Some 6)
          (set_stopped false constructed)))).

(** On TCP, one listener registered and one HTTP request parked. *)
Definition busy : kis_external_interface :=
  set_eventbus_callback_map [("TIMESTAMP", 11)]
    (set_http_proxy_session_map [(0, mk_session 100 0)] on_tcp).

Definition fresh (e : kis_external_interface) : world := mk_world e [].

Definition ping : Command := set_command "PING" new_Command.
End Fixture.

(** * Properties *)

(** ** Sequence numbers *)

Lemma next_seqno_range s : 1 <= next_seqno s <= UINT32_MAX.
Proof.
  unfold next_seqno, wrap32, UINT32_MAX, UINT32_MOD.
  pose proof (Z.mod_pos_bound (s + 1) 4294967296 ltac:(lia)).
  destruct (Z.eqb_spec ((s + 1) mod 4294967296) 0); lia.
Qed.

Lemma next_seqno_small s : 0 <= s < UINT32_MAX -> next_seqno s = s + 1.
Proof.
  unfold next_seqno, wrap32, UINT32_MAX, UINT32_MOD. intros Hs.
  rewrite Z.mod_small by lia.
  destruct (Z.eqb_spec (s + 1) 0); lia.
Qed.

Lemma next_seqno_wrap : next_seqno UINT32_MAX = 1.
Proof. reflexivity. Qed.

Lemma next_seqno_mod a :
  0 <= a -> next_seqno (a mod UINT32_MAX + 1) = (a + 1) mod UINT32_MAX + 1.
Proof.
  intros Ha.
  pose proof (Z.mod_pos_bound a UINT32_MAX ltac:(reflexivity)) as Hr.
  destruct (Z.eq_dec (a mod UINT32_MAX + 1) UINT32_MAX) as [E | E].
  - rewrite E, next_seqno_wrap.
    replace ((a + 1) mod UINT32_MAX) with 0; [reflexivity|].
    symmetry. rewrite <- Z.add_mod_idemp_l by (unfold UINT32_MAX; lia).
    rewrite E. apply Z.mod_same. unfold UINT32_MAX; lia.
  - rewrite next_seqno_small by lia.
    rewrite <- (Z.add_mod_idemp_l a 1) by (unfold UINT32_MAX; lia).
    rewrite (Z.mod_small (a mod UINT32_MAX + 1)) by lia. reflexivity.
Qed.

(** ** Reading the log *)

Lemma skipn_length_app {A : Type} (l l' : list A) :
  skipn (length l) (l ++ l') = l'.
Proof. induction l; [reflexivity | assumption]. Qed.

Lemma emitted_of {A : Type} (m : M A) (w : world) (a : A)
    (e : kis_external_interface) (cs : list call) :
  m w = (a, mk_world e (calls w ++ cs)) -> emitted m w = cs.
Proof.
  intros E. unfold emitted, after. rewrite E. simpl.
  apply skipn_length_app.
Qed.

Lemma emitted_nothing {A : Type} (m : M A) (w : world) (a : A) :
  m w = (a, w) -> emitted m w = [].
Proof.
  intros E. unfold emitted, after. rewrite E. simpl.
  rewrite <- (app_nil_r (calls w)) at 2. apply skipn_length_app.
Qed.

Section SendFacts.
Variable P : protobuf_codec.
Variable H : host_services.
Variable handle_error : string -> M unit.

Local Abbreviation send := (send_packet P H handle_error).
Local Abbreviation world_after := (after_sends P H handle_error).
Local Abbreviation seqno_of := (assigned P H handle_error).

Lemma send_packet_assigns (c : KismetExternal.Command) (w : world) :
  KismetExternal.seqno c = 0 ->
  has_transport (self w) = true ->
  let s := next_seqno (seqno (self w)) in
  send c w =
    (s, mk_world (set_seqno s (self w))
          (calls w ++ [write_of (self w)
                         (frame_of P H (KismetExternal.set_seqno s c))])).
Proof.
  intros Hc Ht. unfold send, has_transport, write_of in *.
  unfold bind, modify, this, ret, invoke. rewrite Hc. simpl.
  destruct (write_cb (self w)); [reflexivity|].
  destruct (is_open (ipc_out (self w))); [reflexivity|].
  destruct (is_open (tcpsocket (self w))); [reflexivity|discriminate].
Qed.

Lemma after_sends_0 cs w : world_after cs 0 w = w.
Proof. reflexivity. Qed.

Lemma after_sends_succ cs n w :
  world_after cs (N.succ n) w =
    after (send (cs n)) (world_after cs n w).
Proof. unfold after_sends. now rewrite N.peano_rect_succ. Qed.

Section Run.
Variable cs : N -> KismetExternal.Command.
Variable w : world.
Hypothesis cs_unnumbered : forall k, KismetExternal.seqno (cs k) = 0.
Hypothesis w_transport : has_transport (self w) = true.

Lemma after_sends_transport n :
  has_transport (self (world_after cs n w)) = true.
Proof.
  induction n using N.peano_ind; [exact w_transport|].
  rewrite after_sends_succ. unfold after.
  rewrite send_packet_assigns by auto. simpl.
  exact IHn.
Qed.

Lemma assigned_next k :
  seqno_of cs k w = next_seqno (seqno (self (world_after cs k w))).
Proof.
  unfold assigned, result.
  rewrite send_packet_assigns by auto using after_sends_transport.
  reflexivity.
Qed.

Lemma seqno_after_succ k :
  seqno (self (world_after cs (N.succ k) w)) = seqno_of cs k w.
Proof.
  rewrite assigned_next, after_sends_succ. unfold after.
  rewrite send_packet_assigns by auto using after_sends_transport.
  reflexivity.
Qed.

Hypothesis w_uint32 : 0 <= seqno (self w) <= UINT32_MAX.

Lemma assigned_closed_form k :
  seqno_of cs k w = (seqno (self w) + Z.of_N k) mod UINT32_MAX + 1.
Proof.
  induction k using N.peano_ind.
  - rewrite assigned_next, after_sends_0, Z.add_0_r.
    destruct (Z.eq_dec (seqno (self w)) UINT32_MAX) as [E | E].
    + rewrite E. reflexivity.
    + rewrite next_seqno_small, Z.mod_small by lia. reflexivity.
  - rewrite assigned_next, seqno_after_succ, IHk, N2Z.inj_succ.
    rewrite next_seqno_mod by lia. f_equal. f_equal. lia.
Qed.

Lemma assigned_distinct i j :
  (i < j)%N -> (j < i + 4294967295)%N -> seqno_of cs i w <> seqno_of cs j w.
Proof.
  intros Hij Hj. rewrite !assigned_closed_form. intros E.
  assert (E' : (seqno (self w) + Z.of_N i) mod UINT32_MAX
               = (seqno (self w) + Z.of_N j) mod UINT32_MAX) by lia.
  clear E. unfold UINT32_MAX in *.
  set (a := seqno (self w) + Z.of_N i) in *.
  set (b := seqno (self w) + Z.of_N j) in *.
  assert (Hab : a < b < a + 4294967295) by (subst a b; lia).
  pose proof (Z.div_mod a 4294967295 ltac:(lia)).
  pose proof (Z.div_mod b 4294967295 ltac:(lia)).
  assert (b - a = 4294967295 * (b / 4294967295 - a / 4294967295)) by lia.
  assert (0 < b / 4294967295 - a / 4294967295 < 1) by nia.
  lia.
Qed.
End Run.

Lemma send_packet_emits (c : KismetExternal.Command) (w : world) :
  KismetExternal.seqno c = 0 ->
  has_transport (self w) = true ->
  emitted (send c) w =
    [write_of (self w)
       (frame_of P H
          (KismetExternal.set_seqno (result (send c) w) c))].
Proof.
  intros Hc Ht. unfold result.
  rewrite (emitted_of _ _ _ _ _ (send_packet_assigns c w Hc Ht)).
  now rewrite send_packet_assigns.
Qed.

(** C1, amended.  On an endpoint with a way to write, sends of commands
    whose seqno is 0 are given, in a row: any [n <= 2^32 - 1] of them
    pairwise distinct seqnos; never 0; 1 when the counter stood at
    2^32 - 1; and each send writes exactly one frame, the serialization
    of the command carrying the seqno just seqno_of and returned. *)
Theorem send_packet_assigns_fresh_seqnos
    (cs : N -> KismetExternal.Command) (w : world) (n : N) :
  (forall k, KismetExternal.seqno (cs k) = 0) ->
  has_transport (self w) = true ->
  0 <= seqno (self w) <= UINT32_MAX ->
  (n <= 4294967295)%N ->
  distinct_seqnos P H handle_error cs n w
  /\ (forall k, seqno_of cs k w <> 0)
  /\ (forall k, seqno (self (world_after cs k w)) = UINT32_MAX ->
                seqno_of cs k w = 1)
  /\ (forall k,
        emitted (send (cs k)) (world_after cs k w) =
          [write_of (self (world_after cs k w))
             (frame_of P H
                (KismetExternal.set_seqno (seqno_of cs k w) (cs k)))]).
Proof.
  intros Hcs Ht Hs Hn. repeat split.
  - intros i j Hij Hj. apply assigned_distinct; auto. lia.
  - intros k. rewrite assigned_next by auto.
    pose proof (next_seqno_range (seqno (self (world_after cs k w)))). lia.
  - intros k E. rewrite assigned_next, E by auto. apply next_seqno_wrap.
  - intros k. apply send_packet_emits; auto using after_sends_transport.
Qed.
End SendFacts.

(** C1 as stated fails once the counter has gone round: from a new
    endpoint, the first and the 2^32-th send both get seqno 1. *)
Lemma seqno_repeats_after_wrap :
  ~ distinct_seqnos Fixture.codec Fixture.quiet_host Fixture.handle_error
      (fun _ => Fixture.ping) 4294967296 (Fixture.fresh Fixture.on_tcp).
Proof.
  intros D. apply (D 0%N 4294967295%N); [lia | lia |].
  rewrite !assigned_closed_form;
    try reflexivity; try (intros; reflexivity);
    try (simpl; unfold UINT32_MAX; lia).
Qed.

Lemma send_packet_assigns_fresh_seqnos_witness :
  let cs := fun _ : N => Fixture.ping in
  let w := Fixture.fresh Fixture.on_tcp in
  distinct_seqnos Fixture.codec Fixture.quiet_host Fixture.handle_error cs 3 w
  /\ assigned Fixture.codec Fixture.quiet_host Fixture.handle_error cs 2 w = 3.
Proof.
  split.
  - apply (send_packet_assigns_fresh_seqnos Fixture.codec Fixture.quiet_host
             Fixture.handle_error (fun _ => Fixture.ping)
             (Fixture.fresh Fixture.on_tcp) 3);
      [intros; reflexivity | reflexivity | simpl; unfold UINT32_MAX; lia | lia].
  - reflexivity.
Defined.

(** ** What the lifecycle functions do, in one step *)

Ltac run :=
  unfold bind, modify, this, ret, invoke, history, _MSG, _MSG_ERROR; simpl.

Lemma for_each_invokes {A : Type} (body : A -> M unit) (g : A -> list call) :
  (forall x w, body x w = (tt, mk_world (self w) (calls w ++ g x))) ->
  forall l w,
    for_each l body w = (tt, mk_world (self w) (calls w ++ flat_map g l)).
Proof.
  intros Hbody l. induction l as [| x l IH]; intros w; simpl.
  - unfold ret. rewrite app_nil_r. now destruct w.
  - unfold bind. rewrite Hbody, IH. simpl. now rewrite <- app_assoc.
Qed.

Lemma cancel_and_close_run s get set w :
  (forall e, get e = None -> set None e = e) ->
  cancel_and_close s get set w =
    (tt, mk_world (set None (self w))
           (calls w ++ close_pipe_calls s (get (self w)))).
Proof.
  intros Hset. unfold cancel_and_close, close_pipe_calls. run.
  destruct (get (self w)) eqn:E; simpl.
  - now rewrite <- app_assoc.
  - rewrite app_nil_r, Hset by assumption. now destruct w.
Qed.

Lemma set_ipc_in_closed e : ipc_in e = None -> set_ipc_in None e = e.
Proof. destruct e; simpl; intros ->; reflexivity. Qed.

Lemma set_ipc_out_closed e : ipc_out e = None -> set_ipc_out None e = e.
Proof. destruct e; simpl; intros ->; reflexivity. Qed.

Lemma set_tcpsocket_closed e : tcpsocket e = None -> set_tcpsocket None e = e.
Proof. destruct e; simpl; intros ->; reflexivity. Qed.

Lemma closed_idempotent e : closed (closed e) = closed e.
Proof. destruct e; vm_compute; reflexivity. Qed.

Lemma ipc_kill_run (sig : signal) (w : world) :
  (modify (set_stopped true) ;;
   modify (set_cancelled true) ;;
   cancel_and_close IPC_IN ipc_in set_ipc_in ;;
   cancel_and_close IPC_OUT ipc_out set_ipc_out ;;
   e <- this ;;
   if 0 <? ipc_pid e then
     invoke (ipctracker_remove_ipc (ipc_pid e)) ;;
     invoke (sys_kill (ipc_pid e) sig)
   else ret tt) w
  = (tt, mk_world (killed (self w)) (calls w ++ kill_calls sig (self w))).
Proof.
  unfold bind at 1 2. unfold modify at 1 2. simpl.
  unfold bind at 1. rewrite cancel_and_close_run by apply set_ipc_in_closed.
  unfold bind at 1. rewrite cancel_and_close_run by apply set_ipc_out_closed.
  run. unfold kill_calls, killed.
  destruct (0 <? ipc_pid (self w)); simpl;
    rewrite <- ?app_assoc, ?app_nil_r; reflexivity.
Qed.

Lemma ipc_soft_kill_run w :
  ipc_soft_kill w =
    (tt, mk_world (killed (self w)) (calls w ++ kill_calls SIGTERM (self w))).
Proof. apply ipc_kill_run. Qed.

Lemma ipc_hard_kill_run w :
  ipc_hard_kill w =
    (tt, mk_world (killed (self w)) (calls w ++ kill_calls SIGKILL (self w))).
Proof. apply ipc_kill_run. Qed.

Lemma close_external_run w :
  close_external w =
    (tt, mk_world (closed (self w)) (calls w ++ close_external_calls (self w))).
Proof.
  unfold close_external.
  unfold bind at 1 2 3. unfold modify at 1 2. unfold this at 1. simpl.
  unfold bind at 1.
  rewrite (for_each_invokes _
             (fun ebid => [eventbus_remove_listener (snd ebid)]))
    by reflexivity.
  unfold bind at 1.
  rewrite (for_each_invokes _
             (fun s => [response_stream_cancel (connection (snd s));
                        locker_unlock (locker (snd s)) None]))
    by (intros x w0; run; now rewrite <- app_assoc).
  unfold bind at 1. unfold invoke at 1. simpl.
  unfold bind at 1. rewrite ipc_hard_kill_run.
  unfold bind at 1. rewrite cancel_and_close_run by apply set_tcpsocket_closed.
  run. unfold close_external_calls, closed.
  assert (Hm : forall (l : list (string * Z)),
             flat_map (fun ebid => [eventbus_remove_listener (snd ebid)]) l
             = map (fun ebid => eventbus_remove_listener (snd ebid)) l).
  { induction l; simpl; congruence. }
  rewrite Hm, <- !app_assoc. reflexivity.
Qed.

Lemma kill_calls_no_child sig e :
  ipc_pid e <= 0 -> existsb signals_child (kill_calls sig e) = false.
Proof.
  intros Hp. unfold kill_calls, close_pipe_calls.
  destruct (Z.ltb_spec 0 (ipc_pid e)); [lia|].
  destruct (is_open (ipc_in e)), (is_open (ipc_out e)); reflexivity.
Qed.

Lemma kill_calls_child sig e :
  0 < ipc_pid e ->
  In (ipctracker_remove_ipc (ipc_pid e)) (kill_calls sig e)
  /\ In (sys_kill (ipc_pid e) sig) (kill_calls sig e).
Proof.
  intros Hp. apply Z.ltb_lt in Hp. unfold kill_calls. rewrite Hp.
  split; do 2 (apply in_or_app; right); simpl; auto.
Qed.

(** C2, amended.  After [close_external]: [stopped] and [cancelled] are
    set; the calls made are exactly, in this order, a [remove_listener]
    for every registered listener, for every parked session the cancel of
    its response stream and then a plain [unlock()] of its locker (no
    failure value is passed), the removal of the ping timer, the calls of
    [ipc_hard_kill] (no deregistration and no signal without a child
    pid, SIGKILL and deregistration with one), and the cancel and close
    of an open socket; pipes and socket are closed, [write_cb] and
    [closure_cb] cleared; a second call leaves the endpoint as the first
    did. *)
Theorem close_external_tears_down (w : world) :
  let e := self w in
  let w' := after close_external w in
  let cs := emitted close_external w in
  stopped (self w') = true /\ cancelled (self w') = true
  /\ cs = close_external_calls e
  /\ (forall name id, In (name, id) (eventbus_callback_map e) ->
                      In (eventbus_remove_listener id) cs)
  /\ (forall k s, In (k, s) (http_proxy_session_map e) ->
                  In (response_stream_cancel (connection s)) cs
                  /\ In (locker_unlock (locker s) None) cs)
  /\ In (timetracker_remove_timer (ping_timer_id e)) cs
  /\ (ipc_pid e <= 0 -> existsb signals_child cs = false)
  /\ (0 < ipc_pid e ->
      In (ipctracker_remove_ipc (ipc_pid e)) cs
      /\ In (sys_kill (ipc_pid e) SIGKILL) cs)
  /\ ipc_in (self w') = None /\ ipc_out (self w') = None
  /\ tcpsocket (self w') = None
  /\ write_cb (self w') = false /\ closure_cb (self w') = false
  /\ self (after close_external w') = self w'.
Proof.
  intros e w' cs.
  assert (Hcs : cs = close_external_calls e)
    by (apply (emitted_of _ _ _ _ _ (close_external_run w))).
  assert (Hw' : self w' = closed e)
    by (subst w'; unfold after; now rewrite close_external_run).
  rewrite Hw'. clearbody cs w'.
  split; [reflexivity|]. split; [reflexivity|]. split; [exact Hcs|].
  subst cs. unfold close_external_calls.
  split.
  { intros name id Hin. apply in_or_app. left.
    apply (in_map (fun ebid => eventbus_remove_listener (snd ebid)) _ _ Hin). }
  split.
  { intros k s Hin.
    split; apply in_or_app; right; apply in_or_app; left;
      apply in_flat_map; exists (k, s);
      (split; [assumption | simpl; auto]). }
  split.
  { do 2 (apply in_or_app; right). now left. }
  split.
  { intros Hp.
    rewrite !existsb_app, kill_calls_no_child by assumption.
    assert (H1 : existsb signals_child
                   (map (fun ebid : string * Z =>
                           eventbus_remove_listener (snd ebid))
                      (eventbus_callback_map e)) = false).
    { induction (eventbus_callback_map e); simpl; auto. }
    assert (H2 : existsb signals_child
                   (flat_map
                      (fun s : Z * kis_external_http_session =>
                         [response_stream_cancel (connection (snd s));
                          locker_unlock (locker (snd s)) None])
                      (http_proxy_session_map e)) = false).
    { induction (http_proxy_session_map e); simpl; auto. }
    rewrite H1, H2. simpl. unfold close_pipe_calls.
    destruct (is_open (tcpsocket e)); reflexivity. }
  split.
  { intros Hp.
    split; do 3 (apply in_or_app; right); apply in_or_app; left;
      apply kill_calls_child; assumption. }
  do 5 (split; [reflexivity|]).
  unfold after. rewrite close_external_run. simpl. rewrite Hw'.
  apply closed_idempotent.
Qed.

(** C2 as stated fails on the locker: the parked session of the busy
    endpoint is unlocked by [close_external], but with no failure value,
    unlike the [unlock(-1)] of the connection's closure callback. *)
Lemma close_external_unlocks_without_failure :
  let e := Fixture.busy in
  let cs := emitted close_external (Fixture.fresh e) in
  In (0, mk_session 100 0) (http_proxy_session_map e)
  /\ In (locker_unlock 0 None) cs
  /\ ~ (exists failure, In (locker_unlock 0 (Some failure)) cs).
Proof.
  vm_compute. split; [auto|]. split; [auto 10|].
  intros [failure Hin].
  repeat (destruct Hin as [Hin | Hin]; [discriminate Hin|]).
  exact Hin.
Qed.

Lemma close_external_tears_down_witness :
  let w := Fixture.fresh Fixture.on_ipc in
  0 < ipc_pid (self w)
  /\ In (sys_kill 4242 SIGKILL) (emitted close_external w).
Proof.
  split; [reflexivity|].
  apply (close_external_tears_down (Fixture.fresh Fixture.on_ipc)).
  reflexivity.
Defined.

(** ** [attach_tcp_socket] *)

Section Attach.
Variable H : host_services.

Lemma attach_tcp_socket_refused (socket : descriptor) (w : world) :
  0 < ipc_pid (self w) ->
  attach_tcp_socket H socket w =
    (false,
     mk_world (set_in_buf [] (set_stopped true (self w)))
       (calls w ++
        [MSG ("Tried to attach a TCP socket to an external endpoint that already has "
              ++ "an IPC instance running.") (MSGFLAG_ERROR H)])).
Proof.
  intros Hp. apply Z.ltb_lt in Hp.
  unfold attach_tcp_socket. run. rewrite Hp. reflexivity.
Qed.

(** C3, amended.  With a child pid recorded, [attach_tcp_socket] returns
    false, starts no read, and leaves [cancelled], the pipes, the socket
    and every other member as they were, except that [stopped] is now
    true and the ingress buffer empty. *)
Theorem attach_tcp_socket_fails_with_child
    (socket : descriptor) (w : world) :
  0 < ipc_pid (self w) ->
  let w' := after (attach_tcp_socket H socket) w in
  result (attach_tcp_socket H socket) w = false
  /\ self w' = set_in_buf [] (set_stopped true (self w))
  /\ stopped (self w') = true /\ in_buf (self w') = []
  /\ cancelled (self w') = cancelled (self w)
  /\ ipc_in (self w') = ipc_in (self w)
  /\ ipc_out (self w') = ipc_out (self w)
  /\ tcpsocket (self w') = tcpsocket (self w)
  /\ existsb starts_io (emitted (attach_tcp_socket H socket) w) = false.
Proof.
  intros Hp w'. subst w'. unfold result, after.
  rewrite (emitted_of _ _ _ _ _ (attach_tcp_socket_refused socket w Hp)).
  rewrite attach_tcp_socket_refused by assumption. simpl.
  repeat split.
Qed.
End Attach.

(** C3 as stated fails: the attach refused on a running IPC endpoint
    stops it and drops the bytes it had buffered. *)
Lemma attach_tcp_socket_changes_state :
  let w := Fixture.fresh Fixture.on_ipc in
  let attach := attach_tcp_socket Fixture.quiet_host (Some 9) in
  0 < ipc_pid (self w)
  /\ result attach w = false
  /\ ~ same_flags_buffer_transport (self w) (self (after attach w)).
Proof.
  split; [reflexivity|]. split; [reflexivity|].
  intros [Hstopped _]. vm_compute in Hstopped. discriminate Hstopped.
Qed.

Lemma attach_tcp_socket_fails_with_child_witness :
  let w := Fixture.fresh Fixture.on_ipc in
  0 < ipc_pid (self w)
  /\ result (attach_tcp_socket Fixture.quiet_host (Some 9)) w = false.
Proof.
  split; [reflexivity|].
  apply (attach_tcp_socket_fails_with_child Fixture.quiet_host (Some 9)
           (Fixture.fresh Fixture.on_ipc)).
  reflexivity.
Defined.

(** ** [trigger_error] and the PING handler *)

Section Handlers.
Variable P : protobuf_codec.
Variable OS : posix_env.
Variable H : host_services.
Variable handle_error : string -> M unit.

Lemma trigger_error_stopped (in_error : string) (w : world) :
  stopped (self w) = true -> trigger_error handle_error in_error w = (tt, w).
Proof. intros Hs. unfold trigger_error. run. now rewrite Hs. Qed.

Lemma trigger_error_running (in_error : string) (w : world) :
  stopped (self w) = false ->
  trigger_error handle_error in_error w =
    (handle_error in_error ;; close_external) w.
Proof. intros Hs. unfold trigger_error. run. now rewrite Hs. Qed.

(** C6.  [trigger_error] on a stopped endpoint changes nothing and calls
    nothing; on a running one it is [handle_error] followed by
    [close_external]; either way [stopped] is true afterwards, whatever
    the hook does. *)
Theorem trigger_error_once (in_error : string) (w : world) :
  (stopped (self w) = true ->
   trigger_error handle_error in_error w = (tt, w)
   /\ emitted (trigger_error handle_error in_error) w = [])
  /\ (stopped (self w) = false ->
      trigger_error handle_error in_error w =
        close_external (after (handle_error in_error) w))
  /\ stopped (self (after (trigger_error handle_error in_error) w)) = true.
Proof.
  split; [| split].
  - intros Hs. split.
    + now apply trigger_error_stopped.
    + apply (emitted_nothing _ _ tt). now apply trigger_error_stopped.
  - intros Hs. rewrite trigger_error_running by assumption.
    unfold bind, after. now destruct (handle_error in_error w).
  - unfold after. destruct (stopped (self w)) eqn:Hs.
    + now rewrite trigger_error_stopped.
    + rewrite trigger_error_running by assumption. unfold bind.
      destruct (handle_error in_error w) as [u w1].
      now rewrite close_external_run.
Qed.

Lemma handle_packet_ping_writes_pong
    (in_seqno : Z) (in_content : string) (w : world) :
  has_transport (self w) = true ->
  let s := next_seqno (seqno (self w)) in
  handle_packet_ping P H handle_error in_seqno in_content w =
    (tt, mk_world (set_seqno s (self w))
           (calls w ++
            [write_of (self w)
               (frame_of P H
                  (KismetExternal.mkCommand "PONG" s
                     (serialize_Pong P (KismetExternal.mkPong in_seqno))))])).
Proof.
  intros Ht. unfold handle_packet_ping, send_pong. unfold bind at 1.
  rewrite send_packet_assigns by (auto; reflexivity).
  reflexivity.
Qed.
End Handlers.

Lemma trigger_error_once_witness :
  let w := Fixture.fresh Fixture.on_tcp in
  stopped (self w) = false
  /\ emitted (trigger_error Fixture.handle_error "oops") w
     = [virtual_handle_error "oops";
        timetracker_remove_timer (-1);
        stream_cancel TCPSOCKET; stream_close TCPSOCKET].
Proof.
  split; [reflexivity|].
  destruct (trigger_error_once Fixture.handle_error "oops"
              (Fixture.fresh Fixture.on_tcp)) as [_ [Hrun _]].
  unfold emitted, after. rewrite (Hrun eq_refl). reflexivity.
Defined.

(** ** The kills *)

Lemma close_external_calls_no_io e :
  existsb starts_io (close_external_calls e) = false.
Proof.
  unfold close_external_calls, kill_calls, close_pipe_calls.
  rewrite !existsb_app.
  assert (H1 : existsb starts_io
                 (map (fun ebid : string * Z =>
                         eventbus_remove_listener (snd ebid))
                    (eventbus_callback_map e)) = false)
    by (induction (eventbus_callback_map e); simpl; auto).
  assert (H2 : existsb starts_io
                 (flat_map
                    (fun s : Z * kis_external_http_session =>
                       [response_stream_cancel (connection (snd s));
                        locker_unlock (locker (snd s)) None])
                    (http_proxy_session_map e)) = false)
    by (induction (http_proxy_session_map e); simpl; auto).
  rewrite H1, H2.
  destruct (is_open (ipc_in e)), (is_open (ipc_out e)),
    (is_open (tcpsocket e)), (0 <? ipc_pid e); reflexivity.
Qed.

Lemma starts_io_async_read cs :
  existsb starts_io cs = false -> existsb is_async_read cs = false.
Proof.
  induction cs as [| c cs IH]; [reflexivity|]. simpl.
  intros E. apply orb_false_iff in E. destruct E as [E1 E2].
  rewrite IH by assumption. now destruct c.
Qed.

Section Kills.
Variable P : protobuf_codec.
Variable H : host_services.
Variable handle_error : string -> M unit.
Variable handle_packet : M Z.

Lemma ipc_kill_run' sig w :
  ipc_kill sig w =
    (tt, mk_world (killed (self w)) (calls w ++ kill_calls sig (self w))).
Proof. destruct sig; [apply ipc_soft_kill_run | apply ipc_hard_kill_run]. Qed.

Lemma handle_read_stopped ec in_amt w :
  stopped (self w) = true ->
  handle_read H handle_error handle_packet ec in_amt w = (0, w).
Proof. intros Hs. unfold handle_read. run. now rewrite Hs. Qed.

Lemma ipc_read_handler_stopped ec data w :
  stopped (self w) = true ->
  let e := set_in_buf (in_buf (self w) ++ data) (self w) in
  ipc_read_handler H handle_error handle_packet ec data w =
    (tt, mk_world (closed e) (calls w ++ close_external_calls e)).
Proof.
  intros Hs e. unfold ipc_read_handler.
  unfold bind at 1. unfold modify at 1.
  unfold bind at 1. rewrite handle_read_stopped by (simpl; now destruct (self w)).
  simpl. now rewrite close_external_run.
Qed.

Lemma tcp_read_handler_stopped ec data w :
  stopped (self w) = true ->
  tcp_read_handler H handle_error handle_packet ec data w =
    (tt, mk_world (set_in_buf (in_buf (self w) ++ data) (self w))
           (calls w ++ [])).
Proof.
  intros Hs. unfold tcp_read_handler.
  unfold bind at 1. unfold modify at 1.
  unfold bind at 1. rewrite handle_read_stopped by (simpl; now destruct (self w)).
  simpl. unfold start_tcp_read, bind, this, ret. simpl.
  rewrite app_nil_r. now destruct (self w); simpl in *; rewrite Hs.
Qed.

Lemma send_packet_stopped_no_transport c w :
  stopped (self w) = true -> has_transport (self w) = false ->
  existsb starts_io (emitted (send_packet P H handle_error c) w) = false.
Proof.
  intros Hs Ht. unfold has_transport in Ht.
  apply orb_false_iff in Ht. destruct Ht as [Ht Htcp].
  apply orb_false_iff in Ht. destruct Ht as [Hcb Hout].
  assert (Hgo : forall w0 c0,
             stopped (self w0) = true -> write_cb (self w0) = false ->
             is_open (ipc_out (self w0)) = false ->
             is_open (tcpsocket (self w0)) = false ->
             (e <- this ;;
              if write_cb e then
                invoke (call_write_cb (frame_of P H c0)) ;;
                ret (KismetExternal.seqno c0)
              else if is_open (ipc_out e) then
                invoke (async_write IPC_OUT (frame_of P H c0)) ;;
                ret (KismetExternal.seqno c0)
              else if is_open (tcpsocket e) then
                invoke (async_write TCPSOCKET (frame_of P H c0)) ;;
                ret (KismetExternal.seqno c0)
              else
                _MSG_ERROR H "Kismet external interface got an error writing packet, no connections" ;;
                trigger_error handle_error "no connections" ;;
                ret 0) w0
             = (0, mk_world (self w0)
                     (calls w0 ++
                      [MSG "Kismet external interface got an error writing packet, no connections"
                         (MSGFLAG_ERROR H)]))).
  { intros w0 c0 H0 H1 H2 H3. unfold bind at 1. unfold this at 1.
    rewrite H1, H2, H3. unfold bind at 1. unfold _MSG_ERROR, invoke at 1.
    unfold bind at 1. rewrite trigger_error_stopped by exact H0.
    reflexivity. }
  assert (Hsend : exists e',
             send_packet P H handle_error c w
             = (0, mk_world e'
                     (calls w ++
                      [MSG "Kismet external interface got an error writing packet, no connections"
                         (MSGFLAG_ERROR H)]))).
  { unfold send_packet.
    destruct (KismetExternal.seqno c =? 0).
    - unfold bind at 1 2. unfold modify at 1. unfold bind at 1.
      unfold this at 1. unfold ret at 1. cbn [self calls].
      rewrite Hgo; [eexists; reflexivity | | | |];
        simpl; now destruct (self w).
    - unfold bind at 1. unfold ret at 1.
      rewrite Hgo by assumption. eexists; reflexivity. }
  destruct Hsend as [e' Hsend].
  now rewrite (emitted_of _ _ _ _ _ Hsend).
Qed.

End Kills.

(** ** Helper lookup *)

Lemma S_IXUSR_bit (mode : Z) :
  negb (Z.land S_IXUSR mode =? 0) = Z.testbit mode 6.
Proof.
  destruct (Z.testbit mode 6) eqn:E.
  - apply negb_true_iff, Z.eqb_neq. intros E0.
    assert (Hb : Z.testbit (Z.land S_IXUSR mode) 6 = true)
      by (rewrite Z.land_spec, E; reflexivity).
    rewrite E0 in Hb. discriminate Hb.
  - apply negb_false_iff, Z.eqb_eq. apply Z.bits_inj'. intros n Hn.
    rewrite Z.land_spec, Z.bits_0. change S_IXUSR with (2 ^ 6).
    rewrite Z.pow2_bits_eqb by lia.
    destruct (Z.eqb_spec 6 n) as [<- | Hne]; [now rewrite E | reflexivity].
Qed.

Section Lookup.
Variable OS : posix_env.
Variable H : host_services.

Lemma check_ipc_search in_binary :
  check_ipc OS H in_binary = check_ipc_loop OS H in_binary (search_paths H).
Proof.
  unfold check_ipc, search_paths.
  now destruct (fetch_opt_vec H "helper_binary_path").
Qed.

Lemma check_ipc_loop_true in_binary paths :
  check_ipc_loop OS H in_binary paths = true <->
  exists rp, In rp paths
             /\ owner_executable_file OS (helper_path_of H rp in_binary).
Proof.
  induction paths as [| rp rest IH]; cbn [check_ipc_loop In].
  - split; [discriminate | intros [rp [[] _]]].
  - split.
    + destruct (stat OS (helper_path_of H rp in_binary)) as [fstat |] eqn:Es.
      * destruct (S_ISDIR (st_mode fstat)) eqn:Ed.
        { intros E. apply IH in E. destruct E as [rp' [Hin Hx]].
          exists rp'. auto. }
        rewrite S_IXUSR_bit.
        destruct (Z.testbit (st_mode fstat) 6) eqn:Ex.
        { intros _. exists rp. split; [now left|]. now exists fstat. }
        intros E. apply IH in E. destruct E as [rp' [Hin Hx]].
        exists rp'. auto.
      * intros E. apply IH in E. destruct E as [rp' [Hin Hx]].
        exists rp'. auto.
    + intros [rp' [[-> | Hin] Hx]].
      * destruct Hx as [fstat [Es [Ed Ex]]].
        now rewrite Es, Ed, S_IXUSR_bit, Ex.
      * assert (Hrest : check_ipc_loop OS H in_binary rest = true)
          by (apply IH; eauto).
        destruct (stat OS (helper_path_of H rp in_binary)) as [fstat |];
          [| exact Hrest].
        destruct (S_ISDIR (st_mode fstat)); [exact Hrest|].
        now destruct (negb (Z.land S_IXUSR (st_mode fstat) =? 0)).
Qed.

(** C8.  [check_ipc(binary)] is true exactly when, for some path of the
    configured list (or for ["%B"] when that list is empty), the expanded
    path joined with ["/"] and the binary can be [stat]ed, is not a
    directory and has the owner-execute bit; so directories and files
    without that bit are passed over, and it is false when no path
    qualifies. *)
Theorem check_ipc_true_iff_executable_found (in_binary : string) :
  check_ipc OS H in_binary = true <->
  exists rp,
    In rp (search_paths H)
    /\ owner_executable_file OS
         (expand_log_path H rp ++ "/" ++ in_binary)%string.
Proof. rewrite check_ipc_search. apply check_ipc_loop_true. Qed.
End Lookup.

(** The binary-resolution scenario: [/tmp/helper] as a regular file
    without, then with, the execute bits. *)
Example check_ipc_not_executable :
  check_ipc (Fixture.os 33188) Fixture.quiet_host "helper" = false.
Proof. reflexivity. Qed.

Example check_ipc_after_chmod :
  check_ipc (Fixture.os 33261) Fixture.quiet_host "helper" = true.
Proof. reflexivity. Qed.

Section Launch.
Variable OS : posix_env.
Variable H : host_services.

Ltac log_norm :=
  cbn [fst snd self calls stopped cancelled ipc_pid ipc_in ipc_out];
  rewrite <- ?app_assoc; rewrite ?skipn_length_app.

Ltac gives_up :=
  split;
  [ intros _; repeat split;
    rewrite ?existsb_app;
    repeat match goal with
           | Hn : existsb is_async_read _ = false |- _ => rewrite Hn
           end;
    reflexivity
  | split; [ split; [intros _; auto 8 | reflexivity] | discriminate ] ].

(** C9.  When [run_ipc] returns false the endpoint is stopped,
    [cancelled] and the transport are as they were, and no read has been
    started; it returns false exactly when the binary name is empty, no
    path has the helper, the permission check fails, a pipe cannot be
    made, or [fork] fails.  When it returns true, [stopped] and
    [cancelled] are both false, the child's pid is recorded, and the last
    two calls made are the registration of the child and the start of the
    read on the pipe, no read having been started before. *)
Theorem run_ipc_stopped_unless_launched (w : world) :
  let r := result (run_ipc OS H) w in
  let w' := after (run_ipc OS H) w in
  let cs := emitted (run_ipc OS H) w in
  (r = returns false ->
   stopped (self w') = true
   /\ cancelled (self w') = cancelled (self w)
   /\ ipc_pid (self w') = ipc_pid (self w)
   /\ ipc_in (self w') = ipc_in (self w)
   /\ ipc_out (self w') = ipc_out (self w)
   /\ existsb is_async_read cs = false)
  /\ (r = returns false <-> run_ipc_gives_up OS H (self w))
  /\ (r = returns true ->
      stopped (self w') = false /\ cancelled (self w') = false
      /\ 0 < fork OS /\ ipc_pid (self w') = fork OS
      /\ exists before,
          cs = (before ++ [ipctracker_register_ipc (fork OS);
                           async_read IPC_IN])%list
          /\ existsb is_async_read before = false).
Proof.
  unfold run_ipc_gives_up, search_paths, emitted, after, result. cbv zeta.
  destruct w as [e h].
  destruct e as [st cn sq lp pt iin iout tcp pid buf wcb ccb ebm sm sid
                   bin args].
  unfold run_ipc.
  cbv [bind modify this ret invoke _MSG _MSG_ERROR start_ipc_read].
  cbn [self calls fst snd set_stopped set_in_buf external_binary
       stopped cancelled ipc_pid ipc_in ipc_out external_binary_args].
  destruct (String.eqb_spec bin "") as [Hb | Hb].
  { log_norm. gives_up. }
  destruct (fetch_opt_vec H "helper_binary_path") as [| p0 ps];
    cbn [length Nat.eqb app];
    [ set (paths := ["%B"]);
      set (note :=
             [MSG ("No helper_binary_path found in kismet.conf, make sure your config "
                   ++ "files are up to date; using the default binary path where Kismet "
                   ++ "is installed.") (MSGFLAG_ERROR H)])
    | set (paths := p0 :: ps);
      pose (note := @nil call) ];
    (assert (Hnote : existsb is_async_read note = false) by reflexivity);
    clearbody note paths.
  all: destruct (find_helper OS H paths bin) as [[helper_path fstat] |];
    [| log_norm; gives_up ].
  all: destruct (can_execute OS fstat); cbn [negb]; [| log_norm; gives_up ].
  all: destruct (pipe OS 0) as [[inpipepair0 inpipepair1] |];
    [| log_norm; gives_up ].
  all: destruct (pipe OS 1) as [[outpipepair0 outpipepair1] |];
    [| log_norm; gives_up ].
  all: destruct (Z.ltb_spec (fork OS) 0) as [Hf | Hf];
    [ log_norm; gives_up |].
  all: destruct (Z.eqb_spec (fork OS) 0) as [Hz | Hz];
    [ log_norm; split; [discriminate|]; split; [| discriminate];
      split; [discriminate|];
      intros [? | [? | [? | [? | ?]]]];
      try contradiction; try discriminate; lia |].
  all: cbn [fst snd self calls stopped cancelled ipc_pid ipc_in ipc_out
            set_cancelled set_stopped set_ipc_pid set_ipc_in set_ipc_out];
    log_norm.
  all: split; [discriminate|]; split;
    [ split; [discriminate|];
      intros [? | [? | [? | [? | ?]]]];
      try contradiction; try discriminate; lia |].
  all: intros _; do 4 (split; [reflexivity || lia|]).
  - exists (note ++ [sys_close inpipepair0; sys_close outpipepair1])%list.
    rewrite <- app_assoc. split; [reflexivity|].
    now rewrite existsb_app, Hnote.
  - exists [sys_close inpipepair0; sys_close outpipepair1].
    split; reflexivity.
Qed.
End Launch.

Lemma run_ipc_stopped_unless_launched_witness :
  let w := Fixture.fresh Fixture.on_tcp in
  result (run_ipc (Fixture.os 33261) Fixture.quiet_host) w = returns false
  /\ stopped (self (after (run_ipc (Fixture.os 33261) Fixture.quiet_host) w))
     = true.
Proof.
  split; [reflexivity|].
  apply (run_ipc_stopped_unless_launched (Fixture.os 33261) Fixture.quiet_host
           (Fixture.fresh Fixture.on_tcp)).
  reflexivity.
Defined.

(** A launch that succeeds, in the parent and in the child. *)
Example run_ipc_in_parent :
  let launch := run_ipc (Fixture.launching_os 4242) Fixture.quiet_host in
  let w := Fixture.fresh Fixture.with_helper in
  result launch w = returns true
  /\ emitted launch w
     = [sys_close 3; sys_close 6; ipctracker_register_ipc 4242;
        async_read IPC_IN]
  /\ ipc_out (self (after launch w)) = Some 4
  /\ ipc_in (self (after launch w)) = Some 5
  /\ ipc_pid (self (after launch w)) = 4242
  /\ stopped (self (after launch w)) = false.
Proof. vm_compute. repeat split. Qed.

Example run_ipc_in_child :
  let launch := run_ipc (Fixture.launching_os 0) Fixture.quiet_host in
  let w := Fixture.fresh Fixture.with_helper in
  result launch w = in_child
  /\ emitted launch w
     = [sys_close 4; sys_close 5;
        child_execvp
          ["/tmp/helper"; "--in-fd=3"; "--out-fd=6"; "--source=wlan0"]]
  /\ stopped (self (after launch w)) = true.
Proof. vm_compute. repeat split. Qed.

(** ** HTTPRESPONSE *)

Lemma accepted_app H h cs cs' :
  accepted H h (cs ++ cs') <-> accepted H h cs /\ accepted H (h ++ cs) cs'.
Proof.
  revert h. induction cs as [| c cs IH]; intros h; simpl.
  - rewrite app_nil_r. tauto.
  - rewrite IH, <- app_assoc. simpl. tauto.
Qed.

Lemma app_split_at {A : Type} (a b done rest : list A) (c : A) :
  (a ++ b = done ++ c :: rest)%list ->
  (exists rest', a = (done ++ c :: rest')%list)
  \/ (exists done', done = (a ++ done')%list /\ b = (done' ++ c :: rest)%list).
Proof.
  revert done. induction a as [| x a IH]; intros done E.
  - right. exists done. auto.
  - destruct done as [| d done]; simpl in E; injection E as Ex E.
    + left. exists a. now subst.
    + subst d. destruct (IH _ E) as [[rest' ->] | [done' [-> ->]]].
      * left. now exists rest'.
      * right. now exists done'.
Qed.

Section HttpResponse.
Variable P : protobuf_codec.
Variable H : host_services.
Variable handle_error : string -> M unit.

Lemma try_connection_accepted c w :
  connection_throws H (calls w) c = None ->
  try_connection H c w = (None, mk_world (self w) (calls w ++ [c])).
Proof. intros E. unfold try_connection. run. now rewrite E. Qed.

Lemma try_connection_thrown c w what :
  connection_throws H (calls w) c = Some what ->
  try_connection H c w = (Some what, w).
Proof. intros E. unfold try_connection. run. now rewrite E. Qed.

Lemma append_headers_accepted con headers w :
  accepted H (calls w) (header_calls con headers) ->
  append_headers H con headers w =
    (None, mk_world (self w) (calls w ++ header_calls con headers)).
Proof.
  revert w. induction headers as [| hh rest IH]; intros w; simpl.
  - intros _. unfold ret. rewrite app_nil_r. now destruct w.
  - intros [Hc Hrest]. unfold bind.
    rewrite try_connection_accepted by assumption.
    rewrite IH by assumption. simpl. now rewrite <- app_assoc.
Qed.

Lemma append_headers_thrown con headers w done c rest what :
  header_calls con headers = (done ++ c :: rest)%list ->
  accepted H (calls w) done ->
  connection_throws H (calls w ++ done) c = Some what ->
  append_headers H con headers w =
    (Some what, mk_world (self w) (calls w ++ done)).
Proof.
  revert w done. induction headers as [| hh hs IH]; intros w done; simpl.
  - intros E. destruct done; discriminate E.
  - intros E Hd Ht. unfold bind. destruct done as [| d done].
    + simpl in E. injection E as Ec _. subst c.
      rewrite app_nil_r in Ht |- *.
      rewrite try_connection_thrown with (what := what) by assumption.
      now destruct w.
    + simpl in E. injection E as Ed Ehs. subst d.
      destruct Hd as [Hc Hd].
      rewrite try_connection_accepted by assumption.
      rewrite (IH _ done) with (1 := Ehs); simpl;
        rewrite <- ?app_assoc; auto.
Qed.

Lemma header_calls_no_status con headers done c rest :
  header_calls con headers = (done ++ c :: rest)%list ->
  refusal_error c = "Invalid HTTPRESPONSE header block"
  /\ forall what,
      refusal_log c what =
        "Kismet external interface failed setting HTTPRESPONSE headers - "
        ++ what.
Proof.
  revert done. induction headers as [| hh hs IH]; intros done E.
  - destruct done; discriminate E.
  - destruct done as [| d done]; simpl in E.
    + injection E as Ec _. subst c. now split.
    + injection E as _ Ehs. eauto.
Qed.

Local Abbreviation on_response :=
  (handle_packet_http_response P H handle_error).

(** C4, amended.  For an HTTPRESPONSE that parses: with no session under
    its [req_id], the handler logs and calls [trigger_error], nothing
    more.  With a session, and as long as the connection throws on none of
    the [append_header] and [set_status] calls, the handler makes exactly
    these calls, in this order: one [append_header] per header in payload
    order, [set_status] iff a resultcode is present, [put_data] iff
    content is present and not empty, and the completion of the stream
    followed by the unlock of the session's locker iff [close_response] is
    true; the endpoint itself is unchanged.  When one of those calls
    throws, the calls before it have been made, the rest is skipped, and
    the handler logs and calls [trigger_error]. *)
Theorem handle_packet_http_response_streams
    (in_seqno : Z) (in_content : string)
    (resp : KismetExternalHttp.HttpResponse) (w : world) :
  parse_HttpResponse P in_content = Some resp ->
  let found :=
    map_find Z.eqb (KismetExternalHttp.req_id resp)
      (http_proxy_session_map (self w)) in
  (found = None ->
   on_response in_seqno in_content w =
     (_MSG "Kismet external interface got a HTTPRESPONSE for an unknown session"
        (MSGFLAG_ERROR H) ;;
      trigger_error handle_error "Invalid HTTPRESPONSE session") w)
  /\ (forall session, found = Some session ->
      let con := connection session in
      let asked :=
        (header_calls con (KismetExternalHttp.header_content resp)
         ++ status_calls con resp)%list in
      (accepted H (calls w) asked ->
       on_response in_seqno in_content w =
         (tt, mk_world (self w)
                (calls w ++ asked ++ body_calls con resp
                 ++ close_calls session resp)))
      /\ (forall done c rest what,
            asked = (done ++ c :: rest)%list ->
            accepted H (calls w) done ->
            connection_throws H (calls w ++ done) c = Some what ->
            on_response in_seqno in_content w =
              (_MSG_ERROR H (refusal_log c what) ;;
               trigger_error handle_error (refusal_error c))
                (mk_world (self w) (calls w ++ done)))).
Proof.
  intros Hparse found. subst found.
  assert (Hfound : forall session',
             map_find Z.eqb (KismetExternalHttp.req_id resp)
               (http_proxy_session_map (self w)) = session' ->
             on_response in_seqno in_content w =
               match session' with
               | Some session =>
                   (thrown <- append_headers H (connection session)
                                (KismetExternalHttp.header_content resp) ;;
                    match thrown with
                    | Some what =>
                        _MSG_ERROR H
                          ("Kismet external interface failed setting HTTPRESPONSE headers - "
                           ++ what) ;;
                        trigger_error handle_error
                          "Invalid HTTPRESPONSE header block"
                    | None =>
                        thrown <-
                          (if KismetExternalHttp.has_resultcode resp then
                             try_connection H
                               (connection_set_status (connection session)
                                  (KismetExternalHttp.resultcode resp))
                           else ret None) ;;
                        match thrown with
                        | Some what =>
                            _MSG_ERROR H
                              ("Kismet external interface failed setting HTTPRESPONSE status code- "
                               ++ what) ;;
                            trigger_error handle_error
                              "invalid HTTPRESPONSE status code"
                        | None =>
                            (if KismetExternalHttp.has_content resp
                                && (0 <? Z.of_nat
                                           (String.length
                                              (KismetExternalHttp.content
                                                 resp)))
                             then
                               invoke (response_stream_put_data
                                         (connection session)
                                         (KismetExternalHttp.content resp))
                             else ret tt) ;;
                            if KismetExternalHttp.has_close_response resp
                               && KismetExternalHttp.close_response resp
                            then
                              invoke (response_stream_complete
                                        (connection session)) ;;
                              invoke (locker_unlock (locker session) None)
                            else ret tt
                        end
                    end) w
               | None =>
                   (_MSG "Kismet external interface got a HTTPRESPONSE for an unknown session"
                      (MSGFLAG_ERROR H) ;;
                    trigger_error handle_error
                      "Invalid HTTPRESPONSE session") w
               end).
  { intros session' E. unfold handle_packet_http_response.
    rewrite Hparse. unfold bind at 1. unfold this at 1.
    rewrite E. now destruct session'. }
  split.
  { intros E. now rewrite (Hfound _ E). }
  intros session E. rewrite (Hfound _ E). clear Hfound E.
  set (con := connection session). split.
  - intros Hacc. apply accepted_app in Hacc. destruct Hacc as [Hh Hs].
    unfold bind at 1.
    rewrite append_headers_accepted by assumption.
    unfold status_calls, body_calls, close_calls in *.
    unfold KismetExternalHttp.has_resultcode, KismetExternalHttp.resultcode,
      KismetExternalHttp.has_content, KismetExternalHttp.content,
      KismetExternalHttp.has_close_response,
      KismetExternalHttp.close_response.
    destruct (KismetExternalHttp.opt_resultcode resp) as [code |].
    + destruct Hs as [Hs _]. unfold bind at 1.
      rewrite try_connection_accepted by exact Hs.
      destruct (KismetExternalHttp.opt_content resp) as [data |];
        destruct (KismetExternalHttp.opt_close_response resp) as [[|] |];
        try destruct (0 <? Z.of_nat (String.length data));
        run; rewrite <- ?app_assoc, ?app_nil_r; reflexivity.
    + unfold bind at 1. unfold ret at 1.
      destruct (KismetExternalHttp.opt_content resp) as [data |];
        destruct (KismetExternalHttp.opt_close_response resp) as [[|] |];
        try destruct (0 <? Z.of_nat (String.length data));
        run; rewrite <- ?app_assoc, ?app_nil_r; reflexivity.
  - intros done c rest what E Hacc Hthrow.
    unfold bind at 1.
    set (hs := header_calls con (KismetExternalHttp.header_content resp))
      in *.
    destruct (app_split_at _ _ _ _ _ E)
      as [[rest' Ehs] | [done' [Edone Est]]].
    + (* the call that throws is an append_header *)
      destruct (header_calls_no_status _ _ _ _ _ Ehs) as [Herr Hlog].
      rewrite (append_headers_thrown _ _ _ _ _ _ _ Ehs Hacc Hthrow).
      now rewrite Herr, Hlog.
    + (* every header went through; set_status throws *)
      subst done.
      apply accepted_app in Hacc. destruct Hacc as [Hh Hd'].
      rewrite append_headers_accepted by exact Hh.
      unfold status_calls in Est.
      unfold KismetExternalHttp.has_resultcode,
        KismetExternalHttp.resultcode.
      destruct (KismetExternalHttp.opt_resultcode resp) as [code |].
      * destruct done' as [| d done']; simpl in Est.
        2:{ injection Est as _ Est. destruct done'; discriminate Est. }
        injection Est as <- _.
        rewrite app_nil_r in Hthrow |- *.
        unfold bind at 1.
        rewrite try_connection_thrown with (what := what)
          by (simpl; exact Hthrow).
        reflexivity.
      * destruct done'; discriminate Est.
Qed.
End HttpResponse.

(** C4 as stated fails when the connection throws: the response of the
    proxy scenario, on a connection whose headers can no longer be set,
    carries a resultcode, content and [close_response], yet no status is
    set, no body pushed and the stream not completed. *)
Lemma http_response_header_throw_skips_status :
  let w := Fixture.fresh Fixture.busy in
  let cs :=
    emitted (handle_packet_http_response Fixture.codec
               Fixture.headers_sent_host Fixture.handle_error 1 "h") w in
  parse_HttpResponse Fixture.codec "h" = Some Fixture.response
  /\ map_find Z.eqb (KismetExternalHttp.req_id Fixture.response)
       (http_proxy_session_map (self w)) = Some (mk_session 100 0)
  /\ KismetExternalHttp.has_resultcode Fixture.response = true
  /\ ~ In (connection_set_status 100 200) cs
  /\ ~ In (response_stream_put_data 100 "hi") cs
  /\ ~ In (response_stream_complete 100) cs.
Proof.
  vm_compute.
  repeat split; try reflexivity; intros Hin;
    repeat (destruct Hin as [Hin | Hin]; [discriminate Hin|]); exact Hin.
Qed.

Lemma handle_packet_http_response_streams_witness :
  let w := Fixture.fresh Fixture.busy in
  parse_HttpResponse Fixture.codec "h" = Some Fixture.response
  /\ emitted (handle_packet_http_response Fixture.codec Fixture.quiet_host
                Fixture.handle_error 1 "h") w
     = [connection_append_header 100 "X-T" "v";
        connection_set_status 100 200;
        response_stream_put_data 100 "hi";
        response_stream_complete 100;
        locker_unlock 0 None].
Proof.
  split; [reflexivity|].
  destruct (handle_packet_http_response_streams Fixture.codec
              Fixture.quiet_host Fixture.handle_error 1 "h" Fixture.response
              (Fixture.fresh Fixture.busy) eq_refl) as [_ Hfound].
  destruct (Hfound (mk_session 100 0) eq_refl) as [Hok _].
  apply (emitted_of _ _ _ _ _ (Hok (conj eq_refl (conj eq_refl I)))).
Defined.

(** ** Unparsable sub-messages *)

Section Unparsable.
Variable P : protobuf_codec.
Variable OS : posix_env.
Variable H : host_services.
Variable handle_error : string -> M unit.

(** What each handler does with content that does not parse: the text
    it logs and the text it gives [trigger_error].  PING has no
    sub-message to parse. *)
Lemma unparsable_sub_messages (in_seqno : Z) (in_content : string) :
  let reports (handler : M unit) (logged error : string) :=
    handler =
      (_MSG logged (MSGFLAG_ERROR H) ;; trigger_error handle_error error) in
  (parse_MsgbusMessage P in_content = None ->
   reports (handle_packet_message P H handle_error in_seqno in_content)
     "Kismet external interface got an unparsable MESSAGE"
     "Invalid MESSAGE")
  /\ (parse_Pong P in_content = None ->
      reports (handle_packet_pong P OS H handle_error in_seqno in_content)
        "Kismet external interface got an unparsable PONG packet"
        "Invalid PONG")
  /\ (parse_ExternalShutdown P in_content = None ->
      reports (handle_packet_shutdown P H handle_error in_seqno in_content)
        "Kismet external interface got an unparsable SHUTDOWN"
        "invalid SHUTDOWN")
  /\ (parse_HttpRegisterUri P in_content = None ->
      reports
        (handle_packet_http_register P H handle_error in_seqno in_content)
        "Kismet external interface got an unparsable HTTPREGISTERURI"
        "Invalid HTTPREGISTERURI")
  /\ (parse_HttpResponse P in_content = None ->
      reports
        (handle_packet_http_response P H handle_error in_seqno in_content)
        "Kismet external interface got an unparsable HTTPRESPONSE"
        "Invalid  HTTPRESPONSE")
  /\ (parse_HttpAuthTokenRequest P in_content = None ->
      reports
        (handle_packet_http_auth_request P H handle_error in_seqno
           in_content)
        "Kismet external interface got an unparsable HTTPAUTHREQ"
        "Invalid HTTPAUTHREQ")
  /\ (parse_EventbusRegisterListener P in_content = None ->
      reports
        (handle_packet_eventbus_register P H handle_error in_seqno
           in_content)
        "Kismet external interface got an unparseable EVENTBUSREGISTER"
        "Invalid EVENTBUSREGISTER")
  /\ (parse_EventbusPublishEvent P in_content = None ->
      reports
        (handle_packet_eventbus_publish P H handle_error in_seqno
           in_content)
        "Kismet external interface got unparseable EVENTBUSPUBLISH"
        "Invalid EVENTBUSPUBLISH").
Proof.
  cbv zeta.
  unfold handle_packet_message, handle_packet_pong, handle_packet_shutdown,
    handle_packet_http_register, handle_packet_http_response,
    handle_packet_http_auth_request, handle_packet_eventbus_register,
    handle_packet_eventbus_publish, _MSG_ERROR.
  repeat split; intros ->; reflexivity.
Qed.
End Unparsable.

(** C7 at the two handlers that miss it.  On a running endpoint, a
    SHUTDOWN whose content does not parse is reported to [handle_error] as
    ["invalid SHUTDOWN"], and an HTTPRESPONSE whose content does not parse
    as ["Invalid  HTTPRESPONSE"] with two spaces; neither is the
    ["Invalid <CMD>"] of the other handlers. *)
Theorem unparsable_shutdown_and_httpresponse_errors :
  let w := Fixture.fresh Fixture.on_tcp in
  let teardown :=
    [timetracker_remove_timer (-1);
     stream_cancel TCPSOCKET; stream_close TCPSOCKET] in
  parse_ExternalShutdown Fixture.codec "garbage" = None
  /\ parse_HttpResponse Fixture.codec "garbage" = None
  /\ emitted (dispatch_rx_packet Fixture.codec (Fixture.os 33261)
                Fixture.quiet_host Fixture.handle_error
                (KismetExternal.mkCommand "SHUTDOWN" 1 "garbage")) w
     = MSG "Kismet external interface got an unparsable SHUTDOWN" 4
         :: virtual_handle_error "invalid SHUTDOWN" :: teardown
  /\ emitted (dispatch_rx_packet Fixture.codec (Fixture.os 33261)
                Fixture.quiet_host Fixture.handle_error
                (KismetExternal.mkCommand "HTTPRESPONSE" 1 "garbage")) w
     = MSG "Kismet external interface got an unparsable HTTPRESPONSE" 4
         :: virtual_handle_error "Invalid  HTTPRESPONSE" :: teardown
  /\ "invalid SHUTDOWN" <> "Invalid SHUTDOWN"
  /\ "Invalid  HTTPRESPONSE" <> "Invalid HTTPRESPONSE".
Proof.
  cbv zeta. repeat split; try reflexivity; discriminate.
Qed.

(** * Further properties of the code *)

(** ** Read completions *)

Lemma close_external_calls_same e e' :
  eventbus_callback_map e' = eventbus_callback_map e ->
  http_proxy_session_map e' = http_proxy_session_map e ->
  ping_timer_id e' = ping_timer_id e ->
  ipc_in e' = ipc_in e -> ipc_out e' = ipc_out e ->
  ipc_pid e' = ipc_pid e -> tcpsocket e' = tcpsocket e ->
  close_external_calls e' = close_external_calls e.
Proof.
  intros E1 E2 E3 E4 E5 E6 E7.
  unfold close_external_calls, kill_calls.
  now rewrite E1, E2, E3, E4, E5, E6, E7.
Qed.

Lemma closed_after_stopped e : closed (set_stopped true e) = closed e.
Proof. destruct e; vm_compute; reflexivity. Qed.

Lemma trigger_error_leaves_stopped handle_error in_error w :
  stopped (self (after (trigger_error handle_error in_error) w)) = true.
Proof.
  unfold after. destruct (stopped (self w)) eqn:Hs.
  - now rewrite trigger_error_stopped.
  - rewrite trigger_error_running by assumption. unfold bind.
    destruct (handle_error in_error w) as [u w1].
    now rewrite close_external_run.
Qed.

Section Reads.
Variable H : host_services.
Variable handle_error : string -> M unit.
Variable handle_packet : M Z.

Local Abbreviation read := (handle_read H handle_error handle_packet).
Local Abbreviation ipc_done := (ipc_read_handler H handle_error handle_packet).
Local Abbreviation tcp_done := (tcp_read_handler H handle_error handle_packet).

Lemma handle_read_error value message in_amt w :
  stopped (self w) = false -> cancelled (self w) = false ->
  read (ec_error value message) in_amt w =
    (-1, mk_world (set_stopped true (self w))
           (calls w ++ read_error_log H (ec_error value message))).
Proof.
  intros Hs Hc. unfold handle_read. unfold bind at 1. unfold this at 1.
  rewrite Hs, Hc.
  destruct value; unfold bind at 1; unfold modify at 1; cbn [self calls].
  - unfold ret. simpl. now rewrite app_nil_r.
  - unfold bind at 1. rewrite trigger_error_stopped by (now destruct (self w)).
    unfold ret. simpl. now rewrite app_nil_r.
  - unfold bind at 1. unfold _MSG_ERROR, invoke at 1. cbn [self calls].
    unfold bind at 1. rewrite trigger_error_stopped by (now destruct (self w)).
    reflexivity.
Qed.

Lemma handle_read_cancelled ec in_amt w :
  stopped (self w) = false -> cancelled (self w) = true ->
  read ec in_amt w =
    (0, mk_world (closed (self w)) (calls w ++ close_external_calls (self w))).
Proof.
  intros Hs Hc. unfold handle_read. unfold bind at 1. unfold this at 1.
  rewrite Hs, Hc. unfold bind. now rewrite close_external_run.
Qed.

(** X1.  A read that completes with an error on a running endpoint makes
    [handle_read] return -1 with [stopped] set and nothing else changed:
    since [stopped] is set before [trigger_error] is called, neither the
    [handle_error] hook nor [close_external] runs, and [handle_packet] is
    not reached; the only call is the log line of an error other than EOF
    and abort. *)
Theorem handle_read_error_only_stops
    (value : error_value) (message : string) (in_amt : Z) (w : world) :
  stopped (self w) = false -> cancelled (self w) = false ->
  let ec := ec_error value message in
  result (read ec in_amt) w = -1
  /\ self (after (read ec in_amt) w) = set_stopped true (self w)
  /\ emitted (read ec in_amt) w = read_error_log H ec.
Proof.
  intros Hs Hc ec. subst ec. unfold result, after.
  rewrite (emitted_of _ _ _ _ _ (handle_read_error value message in_amt w Hs Hc)).
  rewrite handle_read_error by assumption. repeat split.
Qed.

(** X2.  On a read error the two transports part ways.  The completion of
    a pipe read goes on to [close_external]: the endpoint ends closed and
    the teardown calls are made.  The completion of a socket read stops:
    no further read is posted, and the socket stays open, the listeners
    registered and the parked sessions locked. *)
Theorem read_error_closes_ipc_not_tcp
    (value : error_value) (message : string) (data : list Byte.byte)
    (w : world) :
  stopped (self w) = false -> cancelled (self w) = false ->
  let ec := ec_error value message in
  let e := set_in_buf (in_buf (self w) ++ data) (self w) in
  ipc_done ec data w =
    (tt, mk_world (closed e)
           (calls w ++ read_error_log H ec ++ close_external_calls (self w)))
  /\ tcp_done ec data w =
       (tt, mk_world (set_stopped true e) (calls w ++ read_error_log H ec))
  /\ tcpsocket (self (after (tcp_done ec data) w)) = tcpsocket (self w).
Proof.
  intros Hs Hc ec e.
  assert (Hi : ipc_done ec data w =
               (tt, mk_world (closed e)
                      (calls w ++ read_error_log H ec
                       ++ close_external_calls (self w)))).
  { unfold ipc_read_handler. unfold bind at 1. unfold modify at 1.
    unfold bind at 1. subst ec.
    rewrite handle_read_error by (now destruct (self w)).
    cbn [self calls]. change (0 <? -1) with false. cbv iota.
    rewrite close_external_run. cbn [self calls].
    rewrite <- app_assoc. fold e.
    rewrite closed_after_stopped.
    rewrite (close_external_calls_same (self w) (set_stopped true e))
      by (subst e; now destruct (self w)).
    reflexivity. }
  assert (Ht : tcp_done ec data w =
               (tt, mk_world (set_stopped true e)
                      (calls w ++ read_error_log H ec))).
  { unfold tcp_read_handler. unfold bind at 1. unfold modify at 1.
    unfold bind at 1. subst ec.
    rewrite handle_read_error by (now destruct (self w)).
    reflexivity. }
  split; [exact Hi|]. split; [exact Ht|].
  unfold after. rewrite Ht. subst e. now destruct (self w).
Qed.

(** X3.  Once [cancelled] is set on an endpoint that is not yet stopped,
    [handle_read] closes it and returns 0 for every completion, even a
    successful one, so [handle_packet] never sees the bytes.  The socket
    completion then posts no read; the pipe completion calls
    [close_external] a second time, which repeats the calls that do not
    depend on an open descriptor. *)
Theorem cancelled_read_closes
    (ec : error_code) (data : list Byte.byte) (w : world) :
  stopped (self w) = false -> cancelled (self w) = true ->
  let e := set_in_buf (in_buf (self w) ++ data) (self w) in
  read ec (Z.of_nat (length data)) w =
    (0, mk_world (closed (self w)) (calls w ++ close_external_calls (self w)))
  /\ tcp_done ec data w =
       (tt, mk_world (closed e) (calls w ++ close_external_calls (self w)))
  /\ ipc_done ec data w =
       (tt, mk_world (closed e)
              (calls w ++ close_external_calls (self w)
               ++ close_external_calls (closed (self w)))).
Proof.
  intros Hs Hc e.
  split; [now apply handle_read_cancelled|].
  assert (Ecalls : close_external_calls e = close_external_calls (self w))
    by (apply close_external_calls_same; subst e; now destruct (self w)).
  assert (Ecalls' : close_external_calls (closed e)
                    = close_external_calls (closed (self w)))
    by (apply close_external_calls_same; subst e; now destruct (self w)).
  split.
  - unfold tcp_read_handler. unfold bind at 1. unfold modify at 1.
    unfold bind at 1.
    rewrite handle_read_cancelled by (now destruct (self w)).
    cbn [self calls]. fold e. rewrite Ecalls.
    change (0 <=? 0) with true. cbv iota.
    unfold start_tcp_read, bind, this, ret. cbn [self calls fst snd].
    replace (stopped (closed e)) with true by (now destruct e).
    reflexivity.
  - unfold ipc_read_handler. unfold bind at 1. unfold modify at 1.
    unfold bind at 1.
    rewrite handle_read_cancelled by (now destruct (self w)).
    cbn [self calls]. fold e. rewrite Ecalls.
    change (0 <? 0) with false. cbv iota.
    rewrite close_external_run. cbn [self calls].
    rewrite closed_idempotent, Ecalls', <- app_assoc. reflexivity.
Qed.
End Reads.

Lemma handle_read_error_only_stops_witness :
  let w := Fixture.fresh Fixture.on_tcp in
  stopped (self w) = false /\ cancelled (self w) = false
  /\ emitted (handle_read Fixture.quiet_host Fixture.handle_error (ret 1)
                (ec_error eof "End of file") 0) w = [].
Proof.
  split; [reflexivity|]. split; [reflexivity|].
  apply (handle_read_error_only_stops Fixture.quiet_host Fixture.handle_error
           (ret 1) eof "End of file" 0 (Fixture.fresh Fixture.on_tcp));
    reflexivity.
Defined.

Lemma read_error_closes_ipc_not_tcp_witness :
  let w := Fixture.fresh Fixture.on_tcp in
  stopped (self w) = false /\ cancelled (self w) = false
  /\ tcpsocket
       (self (after (tcp_read_handler Fixture.quiet_host Fixture.handle_error
                       (ret 1) (ec_error eof "End of file") []) w))
     = Some 7.
Proof.
  split; [reflexivity|]. split; [reflexivity|].
  apply (read_error_closes_ipc_not_tcp Fixture.quiet_host
           Fixture.handle_error (ret 1) eof "End of file" []
           (Fixture.fresh Fixture.on_tcp)); reflexivity.
Defined.

Lemma cancelled_read_closes_witness :
  let w := Fixture.fresh (set_cancelled true Fixture.on_ipc) in
  stopped (self w) = false /\ cancelled (self w) = true
  /\ handle_read Fixture.quiet_host Fixture.handle_error (ret 1)
       ec_success 0 w
     = (0, mk_world (closed (self w))
             [timetracker_remove_timer (-1);
              stream_cancel IPC_IN; stream_close IPC_IN;
              stream_cancel IPC_OUT; stream_close IPC_OUT;
              ipctracker_remove_ipc 4242; sys_kill 4242 SIGKILL]).
Proof.
  split; [reflexivity|]. split; [reflexivity|].
  apply (cancelled_read_closes Fixture.quiet_host Fixture.handle_error
           (ret 1) ec_success []
           (Fixture.fresh (set_cancelled true Fixture.on_ipc)));
    reflexivity.
Defined.

(** ** The dispatcher *)

Lemma result_then_ret {A B : Type} (m : M A) (b : B) (w : world) :
  result (m ;; ret b) w = b.
Proof. unfold result, bind, ret. now destruct (m w). Qed.

Lemma after_then {A B : Type} (m : M A) (k : M B) (w : world) :
  after (m ;; k) w = after k (after m w).
Proof. unfold after, bind. now destruct (m w). Qed.

Lemma after_ret {A : Type} (a : A) (w : world) : after (ret a) w = w.
Proof. reflexivity. Qed.

Section Dispatch.
Variable P : protobuf_codec.
Variable OS : posix_env.
Variable H : host_services.
Variable handle_error : string -> M unit.

Local Abbreviation dispatch := (dispatch_rx_packet P OS H handle_error).

Lemma dispatch_rx_packet_result (c : KismetExternal.Command) (w : world) :
  result (dispatch c) w
  = existsb (String.eqb (KismetExternal.command c)) builtin_commands.
Proof.
  unfold dispatch_rx_packet, builtin_commands. cbv zeta.
  cbn [existsb].
  repeat
    (match goal with
     | |- context [String.eqb (KismetExternal.command c) ?t] =>
         destruct (String.eqb (KismetExternal.command c) t);
         cbn [orb]; [apply result_then_ret |]
     end).
  reflexivity.
Qed.

Lemma dispatch_rx_packet_unknown (c : KismetExternal.Command) (w : world) :
  existsb (String.eqb (KismetExternal.command c)) builtin_commands = false ->
  dispatch c w = (false, w).
Proof.
  unfold dispatch_rx_packet, builtin_commands. cbv zeta.
  cbn [existsb].
  repeat
    (match goal with
     | |- context [String.eqb (KismetExternal.command c) ?t] =>
         destruct (String.eqb (KismetExternal.command c) t);
         cbn [orb]; [discriminate |]
     end).
  reflexivity.
Qed.

Lemma builtin_commands_spec (tag : string) :
  existsb (String.eqb tag) builtin_commands = true
  <-> In tag builtin_commands.
Proof.
  rewrite existsb_exists. split.
  - intros [t [Hin E]]. apply String.eqb_eq in E. now subst.
  - intros Hin. exists tag. split; [assumption | apply String.eqb_refl].
Qed.

(** X4.  [dispatch_rx_packet] returns true exactly for the nine built-in
    tags, compared as they are spelled; a command with any other tag makes
    it return false having changed nothing and called nothing. *)
Theorem dispatch_rx_packet_builtin_tags
    (c : KismetExternal.Command) (w : world) :
  (result (dispatch c) w = true <->
   In (KismetExternal.command c) builtin_commands)
  /\ (~ In (KismetExternal.command c) builtin_commands ->
      dispatch c w = (false, w)).
Proof.
  split.
  - rewrite dispatch_rx_packet_result. apply builtin_commands_spec.
  - intros Hn. apply dispatch_rx_packet_unknown.
    destruct (existsb (String.eqb (KismetExternal.command c))
                builtin_commands) eqn:E; [| reflexivity].
    apply builtin_commands_spec in E. contradiction.
Qed.
End Dispatch.

Lemma dispatch_rx_packet_builtin_tags_witness :
  let w := Fixture.fresh Fixture.on_tcp in
  let c := KismetExternal.mkCommand "ping" 1 "" in
  ~ In (KismetExternal.command c) builtin_commands
  /\ dispatch_rx_packet Fixture.codec (Fixture.os 33261) Fixture.quiet_host
       Fixture.handle_error c w = (false, w).
Proof.
  assert (Hn : ~ In "ping" builtin_commands).
  { intros Hin. simpl in Hin.
    repeat (destruct Hin as [Hin | Hin]; [discriminate Hin|]). exact Hin. }
  split; [exact Hn|].
  destruct (dispatch_rx_packet_builtin_tags Fixture.codec (Fixture.os 33261)
              Fixture.quiet_host Fixture.handle_error
              (KismetExternal.mkCommand "ping" 1 "")
              (Fixture.fresh Fixture.on_tcp)) as [_ Hunknown].
  exact (Hunknown Hn).
Defined.

(** ** Sub-messages that do not parse, and SHUTDOWN *)

Section Terminal.
Variable P : protobuf_codec.
Variable OS : posix_env.
Variable H : host_services.
Variable handle_error : string -> M unit.

Lemma log_then_trigger_error_stops text flags error w :
  stopped
    (self (after (_MSG text flags ;; trigger_error handle_error error) w))
  = true.
Proof. rewrite after_then. apply trigger_error_leaves_stopped. Qed.

(** X5.  Whatever the [handle_error] hook does, each of the eight handlers
    that parse a sub-message leaves the endpoint stopped when the content
    does not parse. *)
Theorem unparsable_content_stops_endpoint
    (in_seqno : Z) (in_content : string) (w : world) :
  let stops (handler : M unit) := stopped (self (after handler w)) = true in
  (parse_MsgbusMessage P in_content = None ->
   stops (handle_packet_message P H handle_error in_seqno in_content))
  /\ (parse_Pong P in_content = None ->
      stops (handle_packet_pong P OS H handle_error in_seqno in_content))
  /\ (parse_ExternalShutdown P in_content = None ->
      stops (handle_packet_shutdown P H handle_error in_seqno in_content))
  /\ (parse_HttpRegisterUri P in_content = None ->
      stops (handle_packet_http_register P H handle_error in_seqno
               in_content))
  /\ (parse_HttpResponse P in_content = None ->
      stops (handle_packet_http_response P H handle_error in_seqno
               in_content))
  /\ (parse_HttpAuthTokenRequest P in_content = None ->
      stops (handle_packet_http_auth_request P H handle_error in_seqno
               in_content))
  /\ (parse_EventbusRegisterListener P in_content = None ->
      stops (handle_packet_eventbus_register P H handle_error in_seqno
               in_content))
  /\ (parse_EventbusPublishEvent P in_content = None ->
      stops (handle_packet_eventbus_publish P H handle_error in_seqno
               in_content)).
Proof.
  cbv zeta.
  pose proof (unparsable_sub_messages P OS H handle_error in_seqno in_content)
    as U.
  cbv zeta in U.
  destruct U as (U1 & U2 & U3 & U4 & U5 & U6 & U7 & U8).
  repeat split; intros E;
    [ rewrite (U1 E) | rewrite (U2 E) | rewrite (U3 E) | rewrite (U4 E)
    | rewrite (U5 E) | rewrite (U6 E) | rewrite (U7 E) | rewrite (U8 E) ];
    apply log_then_trigger_error_stops.
Qed.

(** X6.  A SHUTDOWN whose content parses is logged at INFO level with the
    reason the helper gave; on a running endpoint [handle_error] is then
    given ["Remote connection requesting shutdown: "] followed by that
    reason, and [close_external] runs after it; on a stopped endpoint the
    log line is all.  Either way the endpoint is stopped afterwards. *)
Theorem handle_packet_shutdown_reports_reason
    (in_seqno : Z) (in_content : string)
    (s : KismetExternal.ExternalShutdown) (w : world) :
  parse_ExternalShutdown P in_content = Some s ->
  let reason := KismetExternal.reason s in
  let logged :=
    mk_world (self w)
      (calls w ++
       [MSG ("Kismet external interface shutting down: " ++ reason)
          (MSGFLAG_INFO H)]) in
  let shutdown := handle_packet_shutdown P H handle_error in_seqno in_content in
  (stopped (self w) = false ->
   shutdown w =
     close_external
       (after (handle_error
                 ("Remote connection requesting shutdown: " ++ reason))
          logged))
  /\ (stopped (self w) = true -> shutdown w = (tt, logged))
  /\ stopped (self (after shutdown w)) = true.
Proof.
  intros Hp reason logged shutdown. subst shutdown.
  unfold handle_packet_shutdown. rewrite Hp. fold reason.
  split; [| split].
  - intros Hs. unfold bind at 1. unfold _MSG, invoke at 1. fold logged.
    rewrite trigger_error_running by exact Hs.
    unfold bind, after. now destruct (handle_error _ logged).
  - intros Hs. unfold bind at 1. unfold _MSG, invoke at 1. fold logged.
    now rewrite trigger_error_stopped.
  - apply log_then_trigger_error_stops.
Qed.
End Terminal.

Lemma unparsable_content_stops_endpoint_witness :
  let w := Fixture.fresh Fixture.on_tcp in
  parse_Pong Fixture.codec "garbage" = None
  /\ stopped
       (self (after (handle_packet_pong Fixture.codec (Fixture.os 33261)
                       Fixture.quiet_host Fixture.handle_error 1 "garbage")
                w)) = true.
Proof.
  split; [reflexivity|].
  destruct (unparsable_content_stops_endpoint Fixture.codec
              (Fixture.os 33261) Fixture.quiet_host Fixture.handle_error 1
              "garbage" (Fixture.fresh Fixture.on_tcp))
    as (_ & Hpong & _).
  exact (Hpong eq_refl).
Defined.

Lemma handle_packet_shutdown_reports_reason_witness :
  let w := Fixture.fresh Fixture.on_tcp in
  parse_ExternalShutdown Fixture.codec "s"
  = Some (KismetExternal.mkExternalShutdown "bye")
  /\ emitted (handle_packet_shutdown Fixture.codec Fixture.quiet_host
                Fixture.handle_error 1 "s") w
     = [MSG "Kismet external interface shutting down: bye" 2;
        virtual_handle_error "Remote connection requesting shutdown: bye";
        timetracker_remove_timer (-1);
        stream_cancel TCPSOCKET; stream_close TCPSOCKET].
Proof.
  split; [reflexivity|].
  destruct (handle_packet_shutdown_reports_reason Fixture.codec
              Fixture.quiet_host Fixture.handle_error 1 "s"
              (KismetExternal.mkExternalShutdown "bye")
              (Fixture.fresh Fixture.on_tcp) eq_refl) as [Hrun _].
  unfold emitted, after. rewrite (Hrun eq_refl). reflexivity.
Defined.

(** ** The send path *)

Section SendPath.
Variable P : protobuf_codec.
Variable H : host_services.
Variable handle_error : string -> M unit.

Local Abbreviation send := (send_packet P H handle_error).

Lemma send_packet_numbered (c : KismetExternal.Command) (w : world) :
  KismetExternal.seqno c <> 0 ->
  has_transport (self w) = true ->
  send c w =
    (KismetExternal.seqno c,
     mk_world (self w) (calls w ++ [write_of (self w) (frame_of P H c)])).
Proof.
  intros Hc Ht. apply Z.eqb_neq in Hc.
  unfold send_packet, has_transport, write_of in *.
  unfold bind, this, ret, invoke. rewrite Hc. simpl.
  destruct (write_cb (self w)); [reflexivity|].
  destruct (is_open (ipc_out (self w))); [reflexivity|].
  destruct (is_open (tcpsocket (self w))); [reflexivity | discriminate].
Qed.

(** X7.  A command that already carries a seqno is written as it is: the
    frame holds that seqno, it is the value returned, and the endpoint's
    counter does not move.  Nothing compares it with the counter, so a
    numbered command that carries the value the counter would give next is
    followed by an unnumbered one that is given the same seqno. *)
Theorem send_packet_keeps_given_seqno
    (c c' : KismetExternal.Command) (w : world) :
  KismetExternal.seqno c <> 0 ->
  has_transport (self w) = true ->
  result (send c) w = KismetExternal.seqno c
  /\ self (after (send c) w) = self w
  /\ emitted (send c) w = [write_of (self w) (frame_of P H c)]
  /\ (KismetExternal.seqno c = next_seqno (seqno (self w)) ->
      KismetExternal.seqno c' = 0 ->
      result (send c') (after (send c) w) = result (send c) w).
Proof.
  intros Hc Ht. unfold result, after.
  rewrite (emitted_of _ _ _ _ _ (send_packet_numbered c w Hc Ht)).
  rewrite send_packet_numbered by assumption. cbn [fst snd self].
  repeat split.
  intros Hnext Hc'. rewrite send_packet_assigns by assumption.
  cbn [fst self]. now rewrite Hnext.
Qed.

Lemma send_packet_no_transport (c : KismetExternal.Command) (w : world) :
  has_transport (self w) = false ->
  let e :=
    if KismetExternal.seqno c =? 0
    then set_seqno (next_seqno (seqno (self w))) (self w)
    else self w in
  send c w =
    (trigger_error handle_error "no connections" ;; ret 0)
      (mk_world e
         (calls w ++
          [MSG "Kismet external interface got an error writing packet, no connections"
             (MSGFLAG_ERROR H)])).
Proof.
  intros Ht e. subst e. unfold has_transport in Ht.
  apply orb_false_iff in Ht. destruct Ht as [Ht Htcp].
  apply orb_false_iff in Ht. destruct Ht as [Hcb Hout].
  unfold send_packet.
  destruct (KismetExternal.seqno c =? 0).
  - unfold bind at 1 2. unfold modify at 1. unfold bind at 1.
    unfold this at 1. unfold ret at 1. cbn [self calls].
    unfold bind at 1. unfold this at 1. cbn [self calls].
    replace (write_cb (set_seqno (next_seqno (seqno (self w))) (self w)))
      with false by (now destruct (self w)).
    replace (is_open
               (ipc_out (set_seqno (next_seqno (seqno (self w))) (self w))))
      with false by (now destruct (self w)).
    replace (is_open
               (tcpsocket (set_seqno (next_seqno (seqno (self w))) (self w))))
      with false by (now destruct (self w)).
    unfold bind at 1. unfold _MSG_ERROR, invoke at 1. reflexivity.
  - unfold bind at 1. unfold ret at 1.
    unfold bind at 1. unfold this at 1. rewrite Hcb, Hout, Htcp.
    unfold bind at 1. unfold _MSG_ERROR, invoke at 1.
    now destruct w.
Qed.

(** X8.  With no write callback, no open pipe and no open socket,
    [send_packet] logs the error and then calls
    [trigger_error("no connections")], on a running endpoint therefore
    [handle_error("no connections")] and [close_external]; it returns 0
    and the endpoint is stopped afterwards; an unnumbered command has by
    then used up a seqno, which no frame carries. *)
Theorem send_packet_without_transport
    (c : KismetExternal.Command) (w : world) :
  has_transport (self w) = false ->
  let logged :=
    [MSG "Kismet external interface got an error writing packet, no connections"
       (MSGFLAG_ERROR H)] in
  let e :=
    if KismetExternal.seqno c =? 0
    then set_seqno (next_seqno (seqno (self w))) (self w)
    else self w in
  send c w =
    (trigger_error handle_error "no connections" ;; ret 0)
      (mk_world e (calls w ++ logged))
  /\ (stopped (self w) = false ->
      send c w =
        ((handle_error "no connections" ;; close_external) ;; ret 0)
          (mk_world e (calls w ++ logged)))
  /\ result (send c) w = 0
  /\ stopped (self (after (send c) w)) = true
  /\ (stopped (self w) = true ->
      emitted (send c) w = logged
      /\ (KismetExternal.seqno c = 0 ->
          seqno (self (after (send c) w)) = next_seqno (seqno (self w)))).
Proof.
  intros Ht logged e. subst logged.
  pose proof (send_packet_no_transport c w Ht) as E.
  cbv zeta in E. fold e in E.
  assert (He : stopped e = stopped (self w))
    by (subst e; destruct (KismetExternal.seqno c =? 0);
        [now destruct (self w) | reflexivity]).
  split; [exact E|]. split; [| split; [| split]].
  - intros Hs. rewrite E. unfold bind at 1 3.
    rewrite trigger_error_running by (cbn [self]; congruence).
    reflexivity.
  - unfold result. rewrite E. unfold bind, ret.
    now destruct (trigger_error handle_error "no connections" _).
  - unfold after. rewrite E. unfold bind, ret.
    set (w1 := mk_world _ _).
    pose proof (trigger_error_leaves_stopped handle_error "no connections" w1)
      as S.
    unfold after in S.
    now destruct (trigger_error handle_error "no connections" w1).
  - intros Hs. unfold bind in E.
    rewrite trigger_error_stopped in E by (cbn [self]; congruence).
    unfold ret in E. split.
    + exact (emitted_of _ _ _ _ _ E).
    + intros Hc. unfold after. rewrite E. subst e. rewrite Hc.
      cbn [snd self]. now destruct (self w).
Qed.

(** X9.  Each outbound originator builds an unnumbered command with its
    own tag and hands it to [send_packet]: on an endpoint with a way to
    write it makes exactly one call, the write of the frame of that
    command with the next seqno, and returns that seqno. *)
Theorem originators_send_one_tagged_frame (w : world) :
  has_transport (self w) = true ->
  let s := next_seqno (seqno (self w)) in
  let sent (tag content : string) : world :=
    mk_world (set_seqno s (self w))
      (calls w ++
       [write_of (self w)
          (frame_of P H (KismetExternal.mkCommand tag s content))]) in
  send_ping P H handle_error w
  = (s, sent "PING" (serialize_Ping P KismetExternal.mkPing))
  /\ (forall ping_seqno,
        send_pong P H handle_error ping_seqno w
        = (s, sent "PONG"
                (serialize_Pong P (KismetExternal.mkPong ping_seqno))))
  /\ (forall reason,
        send_shutdown P H handle_error reason w
        = (s, sent "SHUTDOWN"
                (serialize_ExternalShutdown P
                   (KismetExternal.mkExternalShutdown reason))))
  /\ (forall evt,
        proxy_event P H handle_error evt w
        = (tt, sent "EVENT"
                 (serialize_EventbusEvent P
                    (KismetEventBus.mkEventbusEvent (json_pack H evt)))))
  /\ (forall req_id uri method vars,
        send_http_request P H handle_error req_id uri method vars w
        = (s, sent "HTTPREQUEST"
                (serialize_HttpRequest P
                   (KismetExternalHttp.mkHttpRequest req_id uri method
                      vars))))
  /\ (forall cookie,
        send_http_auth P H handle_error cookie w
        = (s, sent "HTTPAUTH"
                (serialize_HttpAuthToken P
                   (KismetExternalHttp.mkHttpAuthToken cookie)))).
Proof.
  intros Ht s sent. subst sent. cbv beta.
  unfold send_ping, send_pong, send_shutdown, proxy_event, send_http_request,
    send_http_auth.
  repeat split; intros; cbv zeta;
    try (unfold bind; rewrite send_packet_assigns by (auto; reflexivity);
         reflexivity);
    rewrite send_packet_assigns by (auto; reflexivity); reflexivity.
Qed.

(** X10.  The completion of a write, on any of the three transports, does
    nothing on success and nothing on [operation_aborted].  Any other error
    is logged and passed to [trigger_error] as ["write failure"], after
    which the endpoint is stopped. *)
Theorem write_completion_outcomes (message : string) (w : world) :
  let handlers :=
    [write_cb_handler H handle_error; ipc_write_handler H handle_error;
     tcp_write_handler H handle_error] in
  Forall (fun handler : error_code -> M unit =>
            handler ec_success w = (tt, w)
            /\ handler (ec_error operation_aborted message) w = (tt, w)
            /\ (forall value, value <> operation_aborted ->
                stopped (self (after (handler (ec_error value message)) w))
                = true
                /\ exists logged,
                    handler (ec_error value message) w =
                      trigger_error handle_error "write failure"
                        (mk_world (self w)
                           (calls w ++ [MSG logged (MSGFLAG_ERROR H)]))))
    handlers.
Proof.
  cbv zeta. repeat (apply Forall_cons || apply Forall_nil);
    (split; [reflexivity|]; split; [reflexivity|]);
    intros value Hv; destruct value; try contradiction;
    (split;
     [ unfold write_cb_handler, ipc_write_handler, tcp_write_handler;
       unfold _MSG_ERROR; apply log_then_trigger_error_stops
     | eexists; reflexivity ]).
Qed.
End SendPath.

Lemma send_packet_keeps_given_seqno_witness :
  let w := Fixture.fresh Fixture.on_tcp in
  let c := KismetExternal.mkCommand "PING" 1 "" in
  KismetExternal.seqno c <> 0 /\ has_transport (self w) = true
  /\ result (send_packet Fixture.codec Fixture.quiet_host Fixture.handle_error
               Fixture.ping)
       (after (send_packet Fixture.codec Fixture.quiet_host
                 Fixture.handle_error c) w) = 1.
Proof.
  split; [discriminate|]. split; [reflexivity|].
  destruct (send_packet_keeps_given_seqno Fixture.codec Fixture.quiet_host
              Fixture.handle_error (KismetExternal.mkCommand "PING" 1 "")
              Fixture.ping (Fixture.fresh Fixture.on_tcp)
              ltac:(discriminate) eq_refl) as (_ & _ & _ & Hsame).
  exact (Hsame eq_refl eq_refl).
Defined.

Lemma send_packet_without_transport_witness :
  let w := Fixture.fresh Fixture.constructed in
  has_transport (self w) = false
  /\ result (send_packet Fixture.codec Fixture.quiet_host Fixture.handle_error
               Fixture.ping) w = 0.
Proof.
  split; [reflexivity|].
  destruct (send_packet_without_transport Fixture.codec Fixture.quiet_host
              Fixture.handle_error Fixture.ping
              (Fixture.fresh Fixture.constructed) eq_refl)
    as (_ & _ & Hzero & _).
  exact Hzero.
Defined.

Lemma originators_send_one_tagged_frame_witness :
  let w := Fixture.fresh Fixture.on_tcp in
  has_transport (self w) = true
  /\ result (send_shutdown Fixture.codec Fixture.quiet_host
               Fixture.handle_error "bye") w = 1.
Proof.
  split; [reflexivity|].
  destruct (originators_send_one_tagged_frame Fixture.codec Fixture.quiet_host
              Fixture.handle_error (Fixture.fresh Fixture.on_tcp) eq_refl)
    as (_ & _ & Hshut & _).
  unfold result. now rewrite Hshut.
Defined.

(** ** Attaching and closing again *)

Section AttachClose.
Variable H : host_services.

Lemma attached_after_stopped socket e :
  attached socket (set_stopped true e) = attached socket e.
Proof. destruct e; vm_compute; reflexivity. Qed.

Lemma attach_tcp_socket_run (socket : descriptor) (w : world) :
  ipc_pid (self w) <= 0 ->
  attach_tcp_socket H socket w =
    (true, mk_world (attached socket (self w))
             (calls w ++ [async_read TCPSOCKET])).
Proof.
  intros Hp. unfold attach_tcp_socket.
  unfold bind at 1 2 3. unfold modify at 1 2. unfold this at 1.
  cbn [self calls fst snd].
  replace (0 <? ipc_pid (set_in_buf [] (set_stopped true (self w))))
    with false
    by (symmetry; apply Z.ltb_ge; now destruct (self w)).
  unfold bind at 1 2 3. unfold modify at 1 2 3. cbn [self calls fst snd].
  unfold bind at 1. unfold start_tcp_read. unfold bind at 1.
  unfold this at 1. cbn [self calls fst snd].
  replace (stopped
             (set_cancelled false
                (set_stopped false
                   (set_tcpsocket socket
                      (set_in_buf [] (set_stopped true (self w)))))))
    with false by (now destruct (self w)).
  unfold invoke, ret. cbn [self calls fst snd].
  fold (attached socket (set_stopped true (self w))).
  now rewrite attached_after_stopped.
Qed.

(** X11.  On an endpoint with no child pid [attach_tcp_socket] always
    succeeds, whatever state the endpoint was in, closed or with a socket
    already attached: it returns true, takes the socket, empties the
    ingress buffer, clears [stopped] and [cancelled], posts exactly one
    read, and leaves the sequence counter, the two tables and the
    callbacks as they were. *)
Theorem attach_tcp_socket_succeeds_without_child
    (socket : descriptor) (w : world) :
  ipc_pid (self w) <= 0 ->
  let attach := attach_tcp_socket H socket in
  attach w =
    (true, mk_world (attached socket (self w))
             (calls w ++ [async_read TCPSOCKET]))
  /\ stopped (self (after attach w)) = false
  /\ cancelled (self (after attach w)) = false
  /\ tcpsocket (self (after attach w)) = socket
  /\ in_buf (self (after attach w)) = []
  /\ seqno (self (after attach w)) = seqno (self w)
  /\ eventbus_callback_map (self (after attach w))
     = eventbus_callback_map (self w)
  /\ http_proxy_session_map (self (after attach w))
     = http_proxy_session_map (self w)
  /\ write_cb (self (after attach w)) = write_cb (self w).
Proof.
  intros Hp attach. subst attach.
  assert (E : attach_tcp_socket H socket w =
              (true, mk_world (attached socket (self w))
                       (calls w ++ [async_read TCPSOCKET]))).
  { unfold attach_tcp_socket.
    unfold bind at 1 2 3. unfold modify at 1 2. unfold this at 1.
    cbn [self calls fst snd].
    replace (0 <? ipc_pid (set_in_buf [] (set_stopped true (self w))))
      with false
      by (symmetry; apply Z.ltb_ge; now destruct (self w)).
    unfold bind at 1 2 3. unfold modify at 1 2 3. cbn [self calls fst snd].
    unfold bind at 1. unfold start_tcp_read. unfold bind at 1.
    unfold this at 1. cbn [self calls fst snd].
    replace (stopped
               (set_cancelled false
                  (set_stopped false
                     (set_tcpsocket socket
                        (set_in_buf [] (set_stopped true (self w)))))))
      with false by (now destruct (self w)).
    unfold invoke, ret. cbn [self calls fst snd].
    fold (attached socket (set_stopped true (self w))).
    now rewrite attached_after_stopped. }
  split; [exact E|]. unfold after. rewrite E. cbn [snd self].
  destruct (self w); repeat split.
Qed.

(** X12.  [close_external] unregisters the listeners and releases the
    sessions but erases neither table, and does not forget the child pid.
    Called again, it therefore removes the same listener ids, cancels and
    unlocks the same sessions, removes the timer, and deregisters and
    SIGKILLs the same pid a second time; only the descriptors, now
    closed, are left alone. *)
Theorem close_external_again_repeats_calls (w : world) :
  let e := self w in
  let w' := after close_external w in
  eventbus_callback_map (self w') = eventbus_callback_map e
  /\ http_proxy_session_map (self w') = http_proxy_session_map e
  /\ ipc_pid (self w') = ipc_pid e
  /\ seqno (self w') = seqno e
  /\ emitted close_external w' =
       (map (fun ebid => eventbus_remove_listener (snd ebid))
          (eventbus_callback_map e)
        ++ flat_map
             (fun s => [response_stream_cancel (connection (snd s));
                        locker_unlock (locker (snd s)) None])
             (http_proxy_session_map e)
        ++ [timetracker_remove_timer (ping_timer_id e)]
        ++ (if 0 <? ipc_pid e
            then [ipctracker_remove_ipc (ipc_pid e);
                  sys_kill (ipc_pid e) SIGKILL]
            else []))%list.
Proof.
  intros e w'.
  assert (Hw' : w' = mk_world (closed e) (calls w ++ close_external_calls e))
    by (subst w'; unfold after; now rewrite close_external_run).
  rewrite Hw'. cbn [self].
  rewrite (emitted_of _ _ _ _ _ (close_external_run _)). cbn [self].
  destruct e. unfold close_external_calls, kill_calls, close_pipe_calls.
  cbn. rewrite app_nil_r. repeat split.
Qed.
End AttachClose.

Lemma attach_tcp_socket_succeeds_without_child_witness :
  let w := after close_external (Fixture.fresh Fixture.busy) in
  ipc_pid (self w) <= 0 /\ stopped (self w) = true
  /\ stopped (self (after (attach_tcp_socket Fixture.quiet_host (Some 9)) w))
     = false.
Proof.
  split; [discriminate|]. split; [reflexivity|].
  destruct (attach_tcp_socket_succeeds_without_child Fixture.quiet_host
              (Some 9) (after close_external (Fixture.fresh Fixture.busy))
              ltac:(discriminate)) as (_ & Hs & _).
  exact Hs.
Defined.

(** ** The reply to a PING *)

Section PingReply.
Variable P : protobuf_codec.
Variable OS : posix_env.
Variable H : host_services.
Variable handle_error : string -> M unit.

(** C5, amended.  An inbound command tagged PING with envelope seqno [s]
    is always taken by the dispatcher.  On an endpoint with a way to
    write, exactly one call is made for it, the write of one frame; the
    frame is the serialization of a command tagged PONG, whose content is
    the Pong message with [ping_seqno = s] and whose own seqno, the one
    just assigned, is not 0.  On an endpoint with no way to write no
    frame is written: a seqno is used up, the error is logged and
    [trigger_error("no connections")] is called, after which the
    endpoint is stopped; if it was stopped already the log line is the
    only call made. *)
Theorem inbound_ping_pong_needs_transport
    (c : KismetExternal.Command) (w : world) :
  KismetExternal.command c = "PING" ->
  result (dispatch_rx_packet P OS H handle_error c) w = true
  /\ (has_transport (self w) = true ->
      exists pong : KismetExternal.Command,
        emitted (dispatch_rx_packet P OS H handle_error c) w
          = [write_of (self w) (frame_of P H pong)]
        /\ KismetExternal.command pong = "PONG"
        /\ KismetExternal.content pong
           = serialize_Pong P (KismetExternal.mkPong (KismetExternal.seqno c))
        /\ KismetExternal.seqno pong = next_seqno (seqno (self w))
        /\ KismetExternal.seqno pong <> 0)
  /\ (has_transport (self w) = false ->
      let logged :=
        [MSG "Kismet external interface got an error writing packet, no connections"
           (MSGFLAG_ERROR H)] in
      dispatch_rx_packet P OS H handle_error c w =
        (trigger_error handle_error "no connections" ;; ret true)
          (mk_world (set_seqno (next_seqno (seqno (self w))) (self w))
             (calls w ++ logged))
      /\ stopped (self (after (dispatch_rx_packet P OS H handle_error c) w))
         = true
      /\ (stopped (self w) = true ->
          emitted (dispatch_rx_packet P OS H handle_error c) w = logged)).
Proof.
  intros Hc.
  assert (E : dispatch_rx_packet P OS H handle_error c w =
              (handle_packet_ping P H handle_error (KismetExternal.seqno c)
                 (KismetExternal.content c) ;; ret true) w).
  { unfold dispatch_rx_packet. rewrite Hc. reflexivity. }
  destruct (has_transport (self w)) eqn:Ht.
  - unfold bind in E.
    rewrite handle_packet_ping_writes_pong in E by assumption.
    split; [unfold result; now rewrite E|].
    split; [intros _ | discriminate].
    rewrite (emitted_of _ _ _ _ _ E).
    eexists. split; [reflexivity|]. repeat split.
    pose proof (next_seqno_range (seqno (self w))). simpl. lia.
  - set (w1 := mk_world (set_seqno (next_seqno (seqno (self w))) (self w))
                 (calls w ++
                  [MSG "Kismet external interface got an error writing packet, no connections"
                     (MSGFLAG_ERROR H)])).
    assert (E' : dispatch_rx_packet P OS H handle_error c w =
                 (trigger_error handle_error "no connections" ;; ret true)
                   w1).
    { rewrite E. unfold handle_packet_ping, send_pong.
      unfold bind at 1 2.
      rewrite (send_packet_no_transport P H handle_error _ w Ht).
      cbn [KismetExternal.seqno KismetExternal.set_content
           KismetExternal.set_command KismetExternal.new_Command].
      change (0 =? 0) with true. cbv iota. fold w1.
      unfold bind, ret.
      now destruct (trigger_error handle_error "no connections" w1). }
    pose proof (trigger_error_leaves_stopped handle_error "no connections" w1)
      as Hstop.
    unfold after in Hstop.
    split; [| split; [discriminate | intros _; cbv zeta; split; [| split]]].
    + unfold result. rewrite E'. unfold bind, ret.
      now destruct (trigger_error handle_error "no connections" w1).
    + exact E'.
    + unfold after. rewrite E'. unfold bind, ret.
      now destruct (trigger_error handle_error "no connections" w1).
    + intros Hs. unfold bind in E'.
      rewrite trigger_error_stopped in E'
        by (subst w1; cbn [self]; now destruct (self w)).
      unfold ret in E'. subst w1.
      exact (emitted_of _ _ _ _ _ E').
Qed.
End PingReply.

(** C5 as stated fails on an endpoint that can no longer write: the
    decoder hands the dispatcher a SHUTDOWN and then a PING; the first
    closes the socket, the second is taken but no PONG is written for
    it, only the error is logged. *)
Lemma inbound_ping_after_shutdown_gets_no_pong :
  let dispatch :=
    dispatch_rx_packet Fixture.codec (Fixture.os 33261) Fixture.quiet_host
      Fixture.handle_error in
  let w := after (dispatch (KismetExternal.mkCommand "SHUTDOWN" 1 "s"))
             (Fixture.fresh Fixture.on_tcp) in
  let ping7 := KismetExternal.mkCommand "PING" 7 "" in
  has_transport (self (Fixture.fresh Fixture.on_tcp)) = true
  /\ has_transport (self w) = false
  /\ result (dispatch ping7) w = true
  /\ emitted (dispatch ping7) w
     = [MSG "Kismet external interface got an error writing packet, no connections"
          (MSGFLAG_ERROR Fixture.quiet_host)]
  /\ existsb starts_io (emitted (dispatch ping7) w) = false.
Proof. vm_compute. repeat split. Qed.

Lemma inbound_ping_pong_needs_transport_witness :
  let w := Fixture.fresh Fixture.on_tcp in
  let ping7 := KismetExternal.mkCommand "PING" 7 "" in
  KismetExternal.command ping7 = "PING"
  /\ has_transport (self w) = true
  /\ exists pong,
      emitted (dispatch_rx_packet Fixture.codec (Fixture.os 33261)
                 Fixture.quiet_host Fixture.handle_error ping7) w
        = [write_of (self w) (frame_of Fixture.codec Fixture.quiet_host pong)]
      /\ KismetExternal.command pong = "PONG"
      /\ KismetExternal.content pong = "7"
      /\ KismetExternal.seqno pong = 1.
Proof.
  split; [reflexivity|]. split; [reflexivity|].
  destruct (inbound_ping_pong_needs_transport Fixture.codec (Fixture.os 33261)
              Fixture.quiet_host Fixture.handle_error
              (KismetExternal.mkCommand "PING" 7 "")
              (Fixture.fresh Fixture.on_tcp) eq_refl)
    as (_ & Hpong & _).
  destruct (Hpong eq_refl) as [pong [He [Hc [Hp [Hs _]]]]].
  exists pong. repeat split; assumption.
Defined.

(** ** An endpoint that was killed *)

Lemma uses_pipe_starts_io cs :
  existsb starts_io cs = false -> existsb uses_pipe cs = false.
Proof.
  induction cs as [| c cs IH]; [reflexivity|]. simpl.
  intros E. apply orb_false_iff in E. destruct E as [E1 E2].
  rewrite IH by assumption. destruct c; try reflexivity; discriminate E1.
Qed.

Lemma write_of_killed e frame :
  write_of (killed e) frame =
    if write_cb e then call_write_cb frame else async_write TCPSOCKET frame.
Proof. destruct e; vm_compute; reflexivity. Qed.

Lemma has_transport_killed e :
  has_transport (killed e) = write_cb e || is_open (tcpsocket e).
Proof.
  destruct e as [st cn sq lp pt iin iout tcp pid buf [|] ccb ebm sm sid bin
                   args];
    reflexivity.
Qed.

Lemma attached_running socket e :
  stopped (attached socket e) = false /\ cancelled (attached socket e) = false
  /\ tcpsocket (attached socket e) = socket.
Proof. destruct e; vm_compute; repeat split. Qed.

Section Killed.
Variable P : protobuf_codec.
Variable H : host_services.
Variable handle_error : string -> M unit.
Variable handle_packet : M Z.

Lemma send_packet_writes_one (c : KismetExternal.Command) (w : world) :
  has_transport (self w) = true ->
  exists frame,
    emitted (send_packet P H handle_error c) w = [write_of (self w) frame].
Proof.
  intros Ht. destruct (Z.eq_dec (KismetExternal.seqno c) 0) as [Hc | Hc].
  - eexists.
    exact (emitted_of _ _ _ _ _ (send_packet_assigns P H handle_error c w Hc Ht)).
  - eexists.
    exact (emitted_of _ _ _ _ _ (send_packet_numbered P H handle_error c w Hc Ht)).
Qed.

(** C10, amended.  Either kill first sets [stopped] and [cancelled] and
    only then closes the pipes and signals the child; in the state it
    leaves both flags are set and both pipes closed, with or without a
    child pid (without one nothing is deregistered or signalled).  In
    that state the read starters post nothing, the completion of a read
    already posted posts no further read, and [send_packet] posts nothing
    on the pipes.  I/O can still be started: [send_packet] never looks at
    the flags, so with a write callback installed or the TCP socket open
    it makes its one write there (with neither it starts nothing), and
    with no child pid [attach_tcp_socket] succeeds, clears both flags and
    posts a read on the socket. *)
Theorem ipc_kill_stops_endpoint (sig : signal) (w : world) :
  let w' := after (ipc_kill sig) w in
  ipc_kill sig w =
    (cancel_and_close IPC_IN ipc_in set_ipc_in ;;
     cancel_and_close IPC_OUT ipc_out set_ipc_out ;;
     e <- this ;;
     if 0 <? ipc_pid e then
       invoke (ipctracker_remove_ipc (ipc_pid e)) ;;
       invoke (sys_kill (ipc_pid e) sig)
     else ret tt)
      (mk_world (set_cancelled true (set_stopped true (self w))) (calls w))
  /\ stopped (self w') = true /\ cancelled (self w') = true
  /\ ipc_in (self w') = None /\ ipc_out (self w') = None
  /\ (ipc_pid (self w) <= 0 ->
      existsb signals_child (emitted (ipc_kill sig) w) = false)
  /\ emitted start_ipc_read w' = [] /\ emitted start_tcp_read w' = []
  /\ (forall ec data,
        existsb is_async_read
          (emitted (ipc_read_handler H handle_error handle_packet ec data)
             w') = false
        /\ existsb is_async_read
             (emitted (tcp_read_handler H handle_error handle_packet ec data)
                w') = false)
  /\ (forall c,
        existsb uses_pipe (emitted (send_packet P H handle_error c) w')
        = false)
  /\ (write_cb (self w) = false -> is_open (tcpsocket (self w)) = false ->
      forall c,
        existsb starts_io (emitted (send_packet P H handle_error c) w')
        = false)
  /\ (write_cb (self w) || is_open (tcpsocket (self w)) = true ->
      forall c, exists frame,
        emitted (send_packet P H handle_error c) w' =
          [if write_cb (self w) then call_write_cb frame
           else async_write TCPSOCKET frame])
  /\ (ipc_pid (self w) <= 0 ->
      forall socket,
        let attach := attach_tcp_socket H socket in
        result attach w' = true
        /\ emitted attach w' = [async_read TCPSOCKET]
        /\ stopped (self (after attach w')) = false
        /\ cancelled (self (after attach w')) = false
        /\ tcpsocket (self (after attach w')) = socket).
Proof.
  intros w'.
  assert (Hw' : w' = mk_world (killed (self w))
                       (calls w ++ kill_calls sig (self w)))
    by (subst w'; unfold after; now rewrite ipc_kill_run').
  clearbody w'. subst w'.
  split; [destruct sig; reflexivity|].
  do 4 (split; [reflexivity|]).
  split.
  { intros Hp. rewrite (emitted_of _ _ _ _ _ (ipc_kill_run' sig w)).
    now apply kill_calls_no_child. }
  split; [apply (emitted_nothing _ _ tt); reflexivity|].
  split; [apply (emitted_nothing _ _ tt); reflexivity|].
  set (w' := mk_world (killed (self w)) (calls w ++ kill_calls sig (self w))).
  assert (Hs : stopped (self w') = true) by reflexivity.
  assert (Ht : has_transport (self w')
               = write_cb (self w) || is_open (tcpsocket (self w)))
    by apply has_transport_killed.
  assert (Hwr : forall frame,
             write_of (self w') frame =
               if write_cb (self w) then call_write_cb frame
               else async_write TCPSOCKET frame)
    by (intros frame; apply write_of_killed).
  assert (Hpid : ipc_pid (self w') = ipc_pid (self w))
    by (subst w'; cbn [self]; now destruct (self w)).
  clearbody w'.
  split.
  { intros ec data. split.
    - rewrite (emitted_of _ _ _ _ _
                 (ipc_read_handler_stopped H handle_error handle_packet
                    ec data w' Hs)).
      apply starts_io_async_read, close_external_calls_no_io.
    - now rewrite (emitted_of _ _ _ _ _
                     (tcp_read_handler_stopped H handle_error handle_packet
                        ec data w' Hs)). }
  split.
  { intros c. destruct (has_transport (self w')) eqn:Ht'.
    - destruct (send_packet_writes_one c w' Ht') as [frame ->].
      rewrite Hwr. now destruct (write_cb (self w)).
    - now apply uses_pipe_starts_io, send_packet_stopped_no_transport. }
  split.
  { intros Hcb Htcp c. apply send_packet_stopped_no_transport; [exact Hs|].
    now rewrite Ht, Hcb, Htcp. }
  split.
  { intros Hopen c. rewrite <- Ht in Hopen.
    destruct (send_packet_writes_one c w' Hopen) as [frame ->].
    exists frame. now rewrite Hwr. }
  intros Hp socket attach. subst attach.
  assert (E : attach_tcp_socket H socket w' =
              (true, mk_world (attached socket (self w'))
                       (calls w' ++ [async_read TCPSOCKET])))
    by (apply attach_tcp_socket_run; now rewrite Hpid).
  unfold result, after. rewrite (emitted_of _ _ _ _ _ E), E.
  cbn [fst snd self]. split; [reflexivity|]. split; [reflexivity|].
  apply attached_running.
Qed.
End Killed.

(** C10 as stated fails for writes: an endpoint on TCP that is killed is
    stopped and cancelled, yet its next [send_packet] starts a write on
    the socket. *)
Lemma send_packet_writes_after_kill :
  let w' := after ipc_soft_kill (Fixture.fresh Fixture.on_tcp) in
  stopped (self w') = true /\ cancelled (self w') = true
  /\ existsb starts_io
       (emitted (send_packet Fixture.codec Fixture.quiet_host
                   Fixture.handle_error Fixture.ping) w') = true.
Proof. vm_compute. repeat split. Qed.

Lemma ipc_kill_stops_endpoint_witness :
  let send :=
    send_packet Fixture.codec Fixture.quiet_host Fixture.handle_error
      Fixture.ping in
  let child := Fixture.fresh Fixture.on_ipc in
  let remote := Fixture.fresh Fixture.on_tcp in
  (write_cb (self child) = false /\ is_open (tcpsocket (self child)) = false
   /\ emitted (ipc_kill SIGKILL) child
      = [stream_cancel IPC_IN; stream_close IPC_IN;
         stream_cancel IPC_OUT; stream_close IPC_OUT;
         ipctracker_remove_ipc 4242; sys_kill 4242 SIGKILL]
   /\ existsb starts_io (emitted send (after (ipc_kill SIGKILL) child))
      = false)
  /\ (ipc_pid (self remote) <= 0
      /\ write_cb (self remote) || is_open (tcpsocket (self remote)) = true
      /\ existsb signals_child (emitted (ipc_kill SIGTERM) remote) = false
      /\ (exists frame,
            emitted send (after (ipc_kill SIGTERM) remote)
            = [async_write TCPSOCKET frame])
      /\ result (attach_tcp_socket Fixture.quiet_host (Some 9))
           (after (ipc_kill SIGTERM) remote) = true).
Proof.
  cbv zeta. split.
  - pose proof (ipc_kill_stops_endpoint Fixture.codec Fixture.quiet_host
                  Fixture.handle_error (ret 0) SIGKILL
                  (Fixture.fresh Fixture.on_ipc)) as K.
    cbv zeta in K.
    destruct K as (_ & _ & _ & _ & _ & _ & _ & _ & _ & _ & Hquiet & _).
    split; [reflexivity|]. split; [reflexivity|]. split; [reflexivity|].
    exact (Hquiet eq_refl eq_refl Fixture.ping).
  - pose proof (ipc_kill_stops_endpoint Fixture.codec Fixture.quiet_host
                  Fixture.handle_error (ret 0) SIGTERM
                  (Fixture.fresh Fixture.on_tcp)) as K.
    cbv zeta in K.
    destruct K as (_ & _ & _ & _ & _ & Hsig & _ & _ & _ & _ & _ & Hsend
                   & Hattach).
    split; [discriminate|]. split; [reflexivity|].
    split; [apply Hsig; discriminate|].
    split; [exact (Hsend eq_refl Fixture.ping)|].
    destruct (Hattach ltac:(discriminate) (Some 9)) as [Hres _].
    exact Hres.
Defined.

(** ** Helper lookup and permission *)

Lemma S_IXOTH_bit (mode : Z) :
  negb (Z.land mode S_IXOTH =? 0) = Z.testbit mode 0.
Proof.
  destruct (Z.testbit mode 0) eqn:E.
  - apply negb_true_iff, Z.eqb_neq. intros E0.
    assert (Hb : Z.testbit (Z.land mode S_IXOTH) 0 = true)
      by (rewrite Z.land_spec, E; reflexivity).
    rewrite E0 in Hb. discriminate Hb.
  - apply negb_false_iff, Z.eqb_eq. apply Z.bits_inj'. intros n Hn.
    rewrite Z.land_spec, Z.bits_0. change S_IXOTH with (2 ^ 0).
    rewrite Z.pow2_bits_eqb by lia.
    destruct (Z.eqb_spec 0 n) as [<- | Hne];
      [now rewrite E | apply andb_false_r].
Qed.

Section Permission.
Variable OS : posix_env.
Variable H : host_services.

(** X13.  The permission probe of [run_ipc] lets the launch go on exactly
    when the helper is executable by others, or the process owns it, or
    runs as root, or has the file's group as its group or among its
    supplementary groups; a failing [getgroups] counts as no groups. *)
Theorem can_execute_iff (fstat : stat_t) :
  can_execute OS fstat = true <->
  Z.testbit (st_mode fstat) 0 = true
  \/ getuid OS = st_uid fstat
  \/ getuid OS = 0
  \/ getgid OS = st_gid fstat
  \/ exists groups,
      getgroups OS = Some groups /\ In (st_gid fstat) groups.
Proof.
  unfold can_execute. rewrite S_IXOTH_bit.
  destruct (Z.testbit (st_mode fstat) 0); [tauto|].
  destruct (Z.eqb_spec (getuid OS) (st_uid fstat)) as [Eu | Eu];
    cbn [negb andb]; [tauto|].
  destruct (Z.eqb_spec (getuid OS) 0) as [Er | Er]; cbn [negb]; [tauto|].
  destruct (Z.eqb_spec (getgid OS) (st_gid fstat)) as [Eg | Eg];
    cbn [negb]; [tauto|].
  destruct (getgroups OS) as [groups |].
  - split.
    + intros E. apply andb_true_iff in E. destruct E as [_ E].
      apply existsb_exists in E. destruct E as [g [Hin Eg']].
      apply Z.eqb_eq in Eg'. subst g. right. right. right. right.
      now exists groups.
    + intros [F | [F | [F | [F | [gs [Egs Hin]]]]]];
        try discriminate; try contradiction.
      injection Egs as Egs. subst gs. apply andb_true_iff. split.
      * destruct groups; [contradiction | reflexivity].
      * apply existsb_exists. exists (st_gid fstat).
        split; [assumption | apply Z.eqb_refl].
  - split; [discriminate|].
    intros [F | [F | [F | [F | [gs [Egs _]]]]]];
      try discriminate; contradiction.
Qed.

Lemma find_helper_step rp rest in_binary :
  find_helper OS H (rp :: rest) in_binary =
    if qualifies OS (helper_path_of H rp in_binary)
    then match stat OS (helper_path_of H rp in_binary) with
         | Some fstat => Some (helper_path_of H rp in_binary, fstat)
         | None => None
         end
    else find_helper OS H rest in_binary.
Proof.
  cbn [find_helper]. unfold qualifies.
  destruct (stat OS (helper_path_of H rp in_binary)) as [fstat |];
    [| reflexivity].
  destruct (S_ISDIR (st_mode fstat)); [reflexivity|].
  now destruct (negb (Z.land S_IXUSR (st_mode fstat) =? 0)).
Qed.

Lemma check_ipc_loop_step rp rest in_binary :
  check_ipc_loop OS H in_binary (rp :: rest) =
    if qualifies OS (helper_path_of H rp in_binary) then true
    else check_ipc_loop OS H in_binary rest.
Proof.
  cbn [check_ipc_loop]. unfold qualifies.
  destruct (stat OS (helper_path_of H rp in_binary)) as [fstat |];
    [| reflexivity].
  destruct (S_ISDIR (st_mode fstat)); [reflexivity|].
  now destruct (negb (Z.land S_IXUSR (st_mode fstat) =? 0)).
Qed.

(** X14.  The search of [run_ipc] takes the first path, in the order of
    the list, whose expansion joined with the binary name can be
    [stat]ed, is not a directory and has the owner-execute bit: the path
    it returns is that one, with its [stat], and no path before it
    qualifies; it finds nothing exactly when no path qualifies. *)
Theorem find_helper_takes_first (paths : list string) (in_binary : string) :
  match find_helper OS H paths in_binary with
  | Some (helper_path, fstat) =>
      exists before rp rest,
        paths = (before ++ rp :: rest)%list
        /\ helper_path = helper_path_of H rp in_binary
        /\ stat OS helper_path = Some fstat
        /\ qualifies OS helper_path = true
        /\ forall rp', In rp' before ->
                       qualifies OS (helper_path_of H rp' in_binary) = false
  | None =>
      forall rp, In rp paths ->
                 qualifies OS (helper_path_of H rp in_binary) = false
  end.
Proof.
  induction paths as [| rp rest IH].
  - intros rp [].
  - rewrite find_helper_step.
    destruct (qualifies OS (helper_path_of H rp in_binary)) eqn:Eq.
    + destruct (stat OS (helper_path_of H rp in_binary)) as [fstat |] eqn:Es.
      * exists [], rp, rest. repeat split; auto. intros rp' [].
      * unfold qualifies in Eq. rewrite Es in Eq. discriminate Eq.
    + destruct (find_helper OS H rest in_binary) as [[helper_path fstat] |].
      * destruct IH as (before & rp0 & rest0 & -> & -> & Es & Eq0 & Hb).
        exists (rp :: before), rp0, rest0. repeat split; auto.
        intros rp' [<- | Hin]; auto.
      * intros rp' [<- | Hin]; auto.
Qed.

Lemma check_ipc_loop_find_helper paths in_binary :
  check_ipc_loop OS H in_binary paths = true <->
  find_helper OS H paths in_binary <> None.
Proof.
  induction paths as [| rp rest IH].
  - cbn. split; [discriminate | congruence].
  - rewrite find_helper_step, check_ipc_loop_step.
    destruct (qualifies OS (helper_path_of H rp in_binary)) eqn:Eq;
      [| exact IH].
    unfold qualifies in Eq.
    destruct (stat OS (helper_path_of H rp in_binary));
      [| discriminate Eq].
    split; [discriminate | reflexivity].
Qed.

Lemma run_ipc_not_found (w : world) :
  find_helper OS H (search_paths H) (external_binary (self w)) = None ->
  result (run_ipc OS H) w = returns false.
Proof.
  unfold search_paths, result. destruct w as [e h].
  destruct e as [st cn sq lp pt iin iout tcp pid buf wcb ccb ebm sm sid
                   bin args].
  unfold run_ipc.
  cbv [bind modify this ret invoke _MSG _MSG_ERROR].
  cbn [self calls fst snd set_stopped set_in_buf external_binary].
  destruct (String.eqb_spec bin "") as [Hb | Hb]; [reflexivity|].
  destruct (fetch_opt_vec H "helper_binary_path") as [| p0 ps];
    cbn [length Nat.eqb app]; intros ->; reflexivity.
Qed.

(** X15.  [check_ipc] and [run_ipc] search alike: [check_ipc(binary)] is
    true exactly when the search of [run_ipc] for that binary finds a
    helper, so an endpoint whose binary fails [check_ipc] cannot be
    launched: [run_ipc] returns false. *)
Theorem check_ipc_agrees_with_run_ipc (w : world) :
  (forall in_binary,
     check_ipc OS H in_binary = true <->
     find_helper OS H (search_paths H) in_binary <> None)
  /\ (check_ipc OS H (external_binary (self w)) = false ->
      result (run_ipc OS H) w = returns false).
Proof.
  assert (A : forall in_binary,
             check_ipc OS H in_binary = true <->
             find_helper OS H (search_paths H) in_binary <> None).
  { intros in_binary. rewrite check_ipc_search.
    apply check_ipc_loop_find_helper. }
  split; [exact A|].
  intros Hc. apply run_ipc_not_found.
  destruct (find_helper OS H (search_paths H) (external_binary (self w)))
    eqn:Ef; [| reflexivity].
  assert (Ht : check_ipc OS H (external_binary (self w)) = true)
    by (apply A; rewrite Ef; discriminate).
  rewrite Ht in Hc. discriminate Hc.
Qed.
End Permission.

Lemma check_ipc_agrees_with_run_ipc_witness :
  let w := Fixture.fresh Fixture.with_helper in
  check_ipc (Fixture.os 33188) Fixture.quiet_host (external_binary (self w))
  = false
  /\ result (run_ipc (Fixture.os 33188) Fixture.quiet_host) w = returns false.
Proof.
  split; [reflexivity|].
  destruct (check_ipc_agrees_with_run_ipc (Fixture.os 33188)
              Fixture.quiet_host (Fixture.fresh Fixture.with_helper))
    as [_ Hfail].
  exact (Hfail eq_refl).
Defined.

(** ** Descriptors of a launch *)

Section Descriptors.
Variable OS : posix_env.
Variable H : host_services.

Ltac log_norm :=
  cbn [fst snd self calls stopped cancelled ipc_pid ipc_in ipc_out
       set_cancelled set_stopped set_ipc_pid set_ipc_in set_ipc_out];
  rewrite <- ?app_assoc; rewrite ?skipn_length_app;
  unfold closed_fds; rewrite ?flat_map_app; cbn [flat_map app].

End Descriptors.

(** ** [std::map] lookups *)

Section MapFacts.
Context {K V : Type}.
Variable eqb : K -> K -> bool.
Variable ltb : K -> K -> bool.
Hypothesis eqb_eq : forall a b, eqb a b = true <-> a = b.

Lemma map_find_assign_same k v (m : list (K * V)) :
  map_find eqb k (map_assign eqb ltb k v m) = Some v.
Proof.
  assert (Hrefl : eqb k k = true) by now apply eqb_eq.
  induction m as [| [k' v'] rest IH]; cbn.
  - now rewrite Hrefl.
  - destruct (eqb k k') eqn:E; cbn.
    + now rewrite Hrefl.
    + destruct (ltb k k'); cbn; [now rewrite Hrefl|].
      now rewrite E.
Qed.

Lemma map_find_assign_other k k' v (m : list (K * V)) :
  k' <> k ->
  map_find eqb k' (map_assign eqb ltb k v m) = map_find eqb k' m.
Proof.
  intros Hne.
  assert (Hf : eqb k' k = false).
  { destruct (eqb k' k) eqn:E; [| reflexivity].
    apply eqb_eq in E. contradiction. }
  induction m as [| [k0 v0] rest IH]; cbn.
  - now rewrite Hf.
  - destruct (eqb k k0) eqn:E; cbn.
    + apply eqb_eq in E. subst k0. now rewrite Hf.
    + destruct (ltb k k0); cbn.
      * now rewrite Hf.
      * now rewrite IH.
Qed.

Lemma map_find_app k (m m' : list (K * V)) :
  map_find eqb k (m ++ m') =
    match map_find eqb k m with
    | Some v => Some v
    | None => map_find eqb k m'
    end.
Proof.
  induction m as [| [k0 v0] rest IH]; cbn; [reflexivity|].
  now destruct (eqb k k0).
Qed.
End MapFacts.

Lemma var_remap_last_wins (http_variables : list (string * string)) k :
  map_find String.eqb k (var_remap http_variables)
  = map_find String.eqb k (rev http_variables).
Proof.
  unfold var_remap.
  assert (G : forall acc,
             map_find String.eqb k
               (fold_left
                  (fun m v =>
                     map_assign String.eqb String.ltb (fst v) (snd v) m)
                  http_variables acc)
             = match map_find String.eqb k (rev http_variables) with
               | Some v => Some v
               | None => map_find String.eqb k acc
               end).
  { induction http_variables as [| [k0 v0] vs IH]; intros acc; cbn;
      [reflexivity|].
    rewrite IH, map_find_app. cbn.
    destruct (map_find String.eqb k (rev vs)); [reflexivity|].
    destruct (String.eqb_spec k k0) as [-> | Hne].
    - apply map_find_assign_same, String.eqb_eq.
    - apply map_find_assign_other; [apply String.eqb_eq | assumption]. }
  rewrite G. now destruct (map_find String.eqb k (rev http_variables)).
Qed.

Section SortedKeys.
Context {V : Type}.

Lemma keys_above_weaken lo lo' (m : list (Z * V)) :
  lo' <= lo -> keys_above lo m -> keys_above lo' m.
Proof. destruct m as [| [k v] rest]; cbn; [auto|]. intros; split; lia || tauto. Qed.

Lemma keys_above_sorted lo (m : list (Z * V)) :
  keys_above lo m -> keys_sorted m.
Proof. destruct m as [| [k v] rest]; cbn; tauto. Qed.

Lemma keys_above_assign lo k v (m : list (Z * V)) :
  lo < k -> keys_above lo m -> keys_above lo (map_assign Z.eqb Z.ltb k v m).
Proof.
  revert lo. induction m as [| [k' v'] rest IH]; intros lo Hlo Hm; cbn.
  - auto.
  - destruct Hm as [Hk' Hrest].
    destruct (Z.eqb_spec k k') as [-> | Hne]; cbn; [auto|].
    destruct (Z.ltb_spec k k'); cbn.
    + repeat split; auto.
    + split; [assumption|]. apply IH; [lia | assumption].
Qed.

Lemma keys_sorted_assign k v (m : list (Z * V)) :
  keys_sorted m -> keys_sorted (map_assign Z.eqb Z.ltb k v m).
Proof.
  destruct m as [| [k' v'] rest]; cbn; [auto|]. intros Hrest.
  destruct (Z.eqb_spec k k') as [-> | Hne]; cbn; [auto|].
  destruct (Z.ltb_spec k k'); cbn; [auto|].
  apply keys_above_assign; [lia | assumption].
Qed.

Lemma map_find_below lo k (m : list (Z * V)) :
  keys_above lo m -> k <= lo -> map_find Z.eqb k m = None.
Proof.
  revert lo. induction m as [| [k' v'] rest IH]; intros lo Hm Hk; cbn;
    [reflexivity|].
  destruct Hm as [Hk' Hrest].
  destruct (Z.eqb_spec k k'); [lia|]. apply (IH k'); [assumption | lia].
Qed.

Lemma keys_above_erase lo k (m : list (Z * V)) :
  keys_above lo m -> keys_above lo (map_erase Z.eqb k m).
Proof.
  revert lo. induction m as [| [k' v'] rest IH]; intros lo Hm; cbn; [auto|].
  destruct Hm as [Hk' Hrest].
  destruct (Z.eqb_spec k k'); cbn.
  - apply keys_above_weaken with (lo := k'); [lia | assumption].
  - split; [assumption | now apply IH].
Qed.

Lemma keys_sorted_erase k (m : list (Z * V)) :
  keys_sorted m -> keys_sorted (map_erase Z.eqb k m).
Proof.
  destruct m as [| [k' v'] rest]; cbn; [auto|]. intros Hrest.
  destruct (Z.eqb_spec k k'); cbn.
  - now apply keys_above_sorted with (lo := k').
  - now apply keys_above_erase.
Qed.

Lemma map_find_erase_above lo k (m : list (Z * V)) :
  keys_above lo m -> map_find Z.eqb k (map_erase Z.eqb k m) = None.
Proof.
  revert lo. induction m as [| [k' v'] rest IH]; intros lo Hm; cbn;
    [reflexivity|].
  destruct Hm as [Hk' Hrest].
  destruct (Z.eqb_spec k k') as [-> | Hne]; cbn.
  - apply map_find_below with (lo := k'); [assumption | lia].
  - destruct (Z.eqb_spec k k'); [contradiction|]. now apply (IH k').
Qed.

Lemma map_find_erase k (m : list (Z * V)) :
  keys_sorted m -> map_find Z.eqb k (map_erase Z.eqb k m) = None.
Proof.
  destruct m as [| [k' v'] rest]; cbn; [reflexivity|]. intros Hrest.
  destruct (Z.eqb_spec k k') as [-> | Hne]; cbn.
  - apply map_find_below with (lo := k'); [assumption | lia].
  - destruct (Z.eqb_spec k k'); [contradiction|].
    now apply map_find_erase_above with (lo := k').
Qed.

Lemma map_erase_assign_above lo k v (m : list (Z * V)) :
  keys_above lo m ->
  map_erase Z.eqb k (map_assign Z.eqb Z.ltb k v m) = map_erase Z.eqb k m.
Proof.
  revert lo. induction m as [| [k' v'] rest IH]; intros lo Hm; cbn.
  - now rewrite Z.eqb_refl.
  - destruct Hm as [Hk' Hrest].
    destruct (Z.eqb_spec k k') as [-> | Hne]; cbn.
    + now rewrite Z.eqb_refl.
    + destruct (Z.ltb_spec k k'); cbn.
      * rewrite Z.eqb_refl.
        destruct (Z.eqb_spec k k'); [contradiction|].
        assert (E : map_erase Z.eqb k rest = rest).
        { clear IH. revert Hrest. generalize k' H. clear.
          induction rest as [| [k2 v2] rest IH]; intros k' Hlt Hab; cbn;
            [reflexivity|].
          destruct Hab as [Hk2 Hrest].
          destruct (Z.eqb_spec k k2); [lia|].
          f_equal. apply (IH k2); [lia | assumption]. }
        now rewrite E.
      * destruct (Z.eqb_spec k k'); [contradiction|].
        f_equal. now apply (IH k').
Qed.

Lemma map_erase_assign k v (m : list (Z * V)) :
  keys_sorted m ->
  map_erase Z.eqb k (map_assign Z.eqb Z.ltb k v m) = map_erase Z.eqb k m.
Proof.
  destruct m as [| [k' v'] rest]; intros Hm.
  - cbn. now rewrite Z.eqb_refl.
  - apply map_erase_assign_above with (lo := k' - 1).
    cbn in *. split; [lia | assumption].
Qed.
End SortedKeys.

(** ** Event-bus registration *)

Lemma set_eventbus_callback_map_same e :
  set_eventbus_callback_map (eventbus_callback_map e) e = e.
Proof. now destruct e. Qed.

Lemma set_eventbus_callback_map_twice m m' e :
  set_eventbus_callback_map m' (set_eventbus_callback_map m e)
  = set_eventbus_callback_map m' e.
Proof. now destruct e. Qed.

Lemma eventbus_callback_map_set m e :
  eventbus_callback_map (set_eventbus_callback_map m e) = m.
Proof. now destruct e. Qed.

Section EventBus.
Variable P : protobuf_codec.
Variable H : host_services.
Variable handle_error : string -> M unit.

(** The body of the registration loop. *)
Local Abbreviation register_one :=
  (fun ev : string =>
     e <- this ;;
     match map_find String.eqb ev (eventbus_callback_map e) with
     | Some k => invoke (eventbus_remove_listener k)
     | None => ret tt
     end ;;
     h <- history ;;
     let eid := register_listener_id H h ev in
     invoke (eventbus_register_listener ev) ;;
     modify (fun e =>
               set_eventbus_callback_map
                 (map_assign String.eqb String.ltb ev eid
                    (eventbus_callback_map e)) e)).

Lemma register_one_run ev w :
  let m := eventbus_callback_map (self w) in
  let removal :=
    match map_find String.eqb ev m with
    | Some k => [eventbus_remove_listener k]
    | None => []
    end in
  register_one ev w =
    (tt, mk_world
           (set_eventbus_callback_map
              (map_assign String.eqb String.ltb ev
                 (register_listener_id H (calls w ++ removal) ev) m)
              (self w))
           (calls w ++ removal ++ [eventbus_register_listener ev])).
Proof.
  cbv zeta. unfold bind, this, history, invoke, modify, ret.
  destruct (map_find String.eqb ev (eventbus_callback_map (self w)));
    cbn [self calls fst snd]; rewrite <- ?app_assoc, ?app_nil_r;
    reflexivity.
Qed.

Lemma register_loop (events : list string) (w : world) :
  let m := eventbus_callback_map (self w) in
  exists m' cs,
    for_each events register_one w =
      (tt, mk_world (set_eventbus_callback_map m' (self w)) (calls w ++ cs))
    /\ (forall ev, In ev events -> map_find String.eqb ev m' <> None)
    /\ (forall ev, ~ In ev events ->
                   map_find String.eqb ev m' = map_find String.eqb ev m)
    /\ (forall ev k, In ev events -> map_find String.eqb ev m = Some k ->
                     In (eventbus_remove_listener k) cs)
    /\ (forall ev, In ev events -> In (eventbus_register_listener ev) cs).
Proof.
  cbv zeta. revert w. induction events as [| ev0 rest IH]; intros w.
  - exists (eventbus_callback_map (self w)), [].
    split; [| repeat split; intros; contradiction || auto ].
    cbn. unfold ret. rewrite app_nil_r, set_eventbus_callback_map_same.
    now destruct w.
  - cbn [for_each]. unfold bind at 1. rewrite register_one_run.
    set (removal := match map_find String.eqb ev0
                            (eventbus_callback_map (self w)) with
                    | Some k => [eventbus_remove_listener k]
                    | None => []
                    end).
    set (m1 := map_assign String.eqb String.ltb ev0 _
                 (eventbus_callback_map (self w))).
    set (w1 := mk_world _ _).
    destruct (IH w1) as (m' & cs & Erun & P1 & P2 & P3 & P4).
    assert (Em1 : eventbus_callback_map (self w1) = m1)
      by apply eventbus_callback_map_set.
    rewrite Em1 in P2, P3.
    exists m', (removal ++ [eventbus_register_listener ev0] ++ cs)%list.
    split; [| split; [| split; [| split]]].
    + rewrite Erun. subst w1. cbn [self calls].
      rewrite set_eventbus_callback_map_twice, <- !app_assoc. reflexivity.
    + intros ev Hin.
      destruct (in_dec string_dec ev rest) as [Hr | Hr]; [now apply P1|].
      destruct Hin as [<- | Hin]; [| contradiction].
      rewrite (P2 _ Hr). subst m1.
      rewrite map_find_assign_same by apply String.eqb_eq. discriminate.
    + intros ev Hn.
      rewrite P2 by (intros Hin; apply Hn; now right).
      subst m1. apply map_find_assign_other; [apply String.eqb_eq|].
      intros ->. apply Hn. now left.
    + intros ev k Hin Hk.
      destruct (string_dec ev ev0) as [-> | Hne].
      * apply in_or_app. left. subst removal. rewrite Hk. now left.
      * destruct Hin as [-> | Hin]; [contradiction|].
        apply in_or_app. right. apply in_or_app. right.
        apply (P3 ev k Hin). subst m1.
        rewrite map_find_assign_other; [assumption | apply String.eqb_eq
                                        | assumption].
    + intros ev [<- | Hin].
      * apply in_or_app. right. now left.
      * apply in_or_app. right. apply in_or_app. right. now apply P4.
Qed.

(** X17.  An EVENTBUSREGISTER that parses changes the listener table and
    nothing else of the endpoint.  Afterwards every event named in it is
    bound to a listener id and every other event keeps the binding it
    had; a listener is registered for each named event, and for each
    named event that was bound before, the listener it was bound to is
    removed from the bus. *)
Theorem eventbus_register_rebinds_named_events
    (in_seqno : Z) (in_content : string)
    (evtlisten : KismetEventBus.EventbusRegisterListener) (w : world) :
  parse_EventbusRegisterListener P in_content = Some evtlisten ->
  let register :=
    handle_packet_eventbus_register P H handle_error in_seqno in_content in
  let events := KismetEventBus.event evtlisten in
  let m := eventbus_callback_map (self w) in
  let m' := eventbus_callback_map (self (after register w)) in
  self (after register w) = set_eventbus_callback_map m' (self w)
  /\ (forall ev, In ev events -> map_find String.eqb ev m' <> None)
  /\ (forall ev, ~ In ev events ->
                 map_find String.eqb ev m' = map_find String.eqb ev m)
  /\ (forall ev k, In ev events -> map_find String.eqb ev m = Some k ->
                   In (eventbus_remove_listener k) (emitted register w))
  /\ (forall ev, In ev events ->
                 In (eventbus_register_listener ev) (emitted register w)).
Proof.
  intros Hp. cbv zeta.
  destruct (register_loop (KismetEventBus.event evtlisten) w)
    as (m' & cs & Erun & P1 & P2 & P3 & P4).
  assert (E : handle_packet_eventbus_register P H handle_error in_seqno
                in_content w =
              (tt, mk_world (set_eventbus_callback_map m' (self w))
                     (calls w ++ cs))).
  { unfold handle_packet_eventbus_register. rewrite Hp. exact Erun. }
  rewrite (emitted_of _ _ _ _ _ E). unfold after. rewrite E.
  cbn [snd self]. rewrite eventbus_callback_map_set.
  repeat split; assumption.
Qed.
End EventBus.

Lemma eventbus_register_rebinds_named_events_witness :
  let w := Fixture.fresh Fixture.busy in
  parse_EventbusRegisterListener Fixture.codec "r"
  = Some (KismetEventBus.mkEventbusRegisterListener ["TIMESTAMP"])
  /\ In (eventbus_remove_listener 11)
       (emitted (handle_packet_eventbus_register Fixture.codec
                   Fixture.quiet_host Fixture.handle_error 1 "r") w).
Proof.
  split; [reflexivity|].
  destruct (eventbus_register_rebinds_named_events Fixture.codec
              Fixture.quiet_host Fixture.handle_error 1 "r"
              (KismetEventBus.mkEventbusRegisterListener ["TIMESTAMP"])
              (Fixture.fresh Fixture.busy) eq_refl)
    as (_ & _ & _ & Hremoved & _).
  apply (Hremoved "TIMESTAMP" 11); [now left | reflexivity].
Defined.

(** ** The HTTP proxy sessions *)

Lemma parked_table con e :
  http_proxy_session_map (parked con e)
  = map_assign Z.eqb Z.ltb (http_session_id e)
      (mk_session con (http_session_id e)) (http_proxy_session_map e).
Proof. now destruct e. Qed.

Lemma http_proxy_session_map_set m e :
  http_proxy_session_map (set_http_proxy_session_map m e) = m.
Proof. now destruct e. Qed.

Section Proxy.
Variable P : protobuf_codec.
Variable H : host_services.
Variable handle_error : string -> M unit.

Local Abbreviation route := (http_route_handler P H handle_error).

Lemma http_route_handler_run
    (con : Z) (con_uri con_verb : string)
    (http_variables : list (string * string)) (w : world) :
  has_transport (self w) = true ->
  let sess_id := http_session_id (self w) in
  let request :=
    KismetExternal.mkCommand "HTTPREQUEST" (next_seqno (seqno (self w)))
      (serialize_HttpRequest P
         (KismetExternalHttp.mkHttpRequest sess_id con_uri con_verb
            (var_remap http_variables))) in
  route con con_uri con_verb http_variables w =
    (sess_id,
     mk_world (parked con (self w))
       (calls w ++
        [locker_lock sess_id;
         write_of (self w) (frame_of P H request);
         connection_set_closure_cb con sess_id;
         locker_block_until sess_id])).
Proof.
  intros Ht. cbv zeta. unfold http_route_handler.
  unfold bind at 1. unfold this at 1. cbn [locker connection].
  unfold bind at 1. unfold invoke at 1.
  unfold bind at 1. unfold modify at 1.
  unfold bind at 1. unfold modify at 1. cbn [self calls].
  unfold bind at 1. unfold send_http_request.
  fold (var_remap http_variables).
  rewrite send_packet_assigns;
    [| reflexivity
     | cbn [self]; unfold has_transport in *; now destruct (self w) ].
  cbn [self calls].
  unfold bind, invoke, ret. cbn [self calls].
  rewrite <- !app_assoc. cbn [app].
  destruct (self w) as [st cn sq lp pt iin iout tcp pid buf wcb ccb ebm sm
                          sid bin args].
  unfold parked, write_of.
  cbn [set_seqno set_http_proxy_session_map set_http_session_id
       seqno http_proxy_session_map http_session_id
       write_cb ipc_out tcpsocket].
  reflexivity.
Qed.

(** X18.  On an endpoint with a way to write, the route handler of a
    proxied request takes the current [http_session_id] as the request's
    id and returns it, advances that counter by one modulo 2^32, binds
    the id to a session on the request's connection and leaves every
    other id as it was.  It locks the session's locker, writes one
    HTTPREQUEST frame carrying the id, the URI, the verb and the
    variables (of a variable given twice, the last value), installs the
    closure callback and only then blocks. *)
Theorem http_route_handler_parks_request
    (con : Z) (con_uri con_verb : string)
    (http_variables : list (string * string)) (w : world) :
  has_transport (self w) = true ->
  let handler := route con con_uri con_verb http_variables in
  let sess_id := http_session_id (self w) in
  let table' := http_proxy_session_map (self (after handler w)) in
  result handler w = sess_id
  /\ http_session_id (self (after handler w)) = wrap32 (sess_id + 1)
  /\ map_find Z.eqb sess_id table' = Some (mk_session con sess_id)
  /\ (forall id, id <> sess_id ->
        map_find Z.eqb id table'
        = map_find Z.eqb id (http_proxy_session_map (self w)))
  /\ emitted handler w =
       [locker_lock sess_id;
        write_of (self w)
          (frame_of P H
             (KismetExternal.mkCommand "HTTPREQUEST"
                (next_seqno (seqno (self w)))
                (serialize_HttpRequest P
                   (KismetExternalHttp.mkHttpRequest sess_id con_uri con_verb
                      (var_remap http_variables)))));
        connection_set_closure_cb con sess_id;
        locker_block_until sess_id]
  /\ (forall name,
        map_find String.eqb name (var_remap http_variables)
        = map_find String.eqb name (rev http_variables)).
Proof.
  intros Ht. cbv zeta.
  pose proof (http_route_handler_run con con_uri con_verb http_variables w
                Ht) as E.
  cbv zeta in E.
  rewrite (emitted_of _ _ _ _ _ E). unfold result, after. rewrite E.
  cbn [fst snd self]. rewrite parked_table.
  split; [reflexivity|]. split; [now destruct (self w)|].
  split; [apply map_find_assign_same, Z.eqb_eq|].
  split; [intros id Hne; apply map_find_assign_other;
          [apply Z.eqb_eq | assumption]|].
  split; [reflexivity|]. apply var_remap_last_wins.
Qed.

(** X19.  The session table keeps its keys strictly rising through the
    route handler and through the handler's wake-up.  After the wake-up
    the table is the one from before the request without the request's
    id, the id is unbound, and an HTTPRESPONSE that arrives for it is
    answered like one for a session never known: an error is logged and
    [trigger_error("Invalid HTTPRESPONSE session")] called. *)
Theorem http_session_removed_on_wake
    (con : Z) (con_uri con_verb : string)
    (http_variables : list (string * string)) (w : world) :
  has_transport (self w) = true ->
  keys_sorted (http_proxy_session_map (self w)) ->
  let handler := route con con_uri con_verb http_variables in
  let sess_id := result handler w in
  let w1 := after handler w in
  let w2 := after (http_route_handler_wake sess_id) w1 in
  keys_sorted (http_proxy_session_map (self w1))
  /\ keys_sorted (http_proxy_session_map (self w2))
  /\ http_proxy_session_map (self w2)
     = map_erase Z.eqb sess_id (http_proxy_session_map (self w))
  /\ map_find Z.eqb sess_id (http_proxy_session_map (self w2)) = None
  /\ (forall in_seqno in_content resp,
        parse_HttpResponse P in_content = Some resp ->
        KismetExternalHttp.req_id resp = sess_id ->
        handle_packet_http_response P H handle_error in_seqno in_content w2 =
          (_MSG "Kismet external interface got a HTTPRESPONSE for an unknown session"
             (MSGFLAG_ERROR H) ;;
           trigger_error handle_error "Invalid HTTPRESPONSE session") w2).
Proof.
  intros Ht Hsorted. cbv zeta.
  pose proof (http_route_handler_run con con_uri con_verb http_variables w
                Ht) as E.
  cbv zeta in E. unfold result, after. rewrite E. cbn [fst snd].
  unfold http_route_handler_wake, modify. cbn [fst snd self].
  set (sid := http_session_id (self w)).
  assert (Et : http_proxy_session_map
                 (set_http_proxy_session_map
                    (map_erase Z.eqb sid
                       (http_proxy_session_map (parked con (self w))))
                    (parked con (self w)))
               = map_erase Z.eqb sid (http_proxy_session_map (self w))).
  { rewrite http_proxy_session_map_set, parked_table. fold sid.
    now apply map_erase_assign. }
  rewrite Et, parked_table. fold sid.
  assert (Hnone : map_find Z.eqb sid
                    (map_erase Z.eqb sid (http_proxy_session_map (self w)))
                  = None) by now apply map_find_erase.
  split; [now apply keys_sorted_assign|].
  split; [now apply keys_sorted_erase|].
  split; [reflexivity|]. split; [exact Hnone|].
  intros in_seqno in_content resp Hp Hid.
  unfold handle_packet_http_response. rewrite Hp.
  unfold bind at 1. unfold this at 1. cbv beta iota. cbn [self].
  rewrite Hid. fold sid.
  rewrite http_proxy_session_map_set, map_erase_assign by assumption.
  now rewrite Hnone.
Qed.

(** X20.  An HTTPAUTHREQ that parses, on an endpoint with a way to write,
    has a token minted by the HTTP server under the name ["external"] and
    then writes exactly one frame, an HTTPAUTH command with the next
    seqno whose content is that token; nothing of the endpoint changes but
    the sequence counter. *)
Theorem http_auth_request_sends_token
    (in_seqno : Z) (in_content : string)
    (rt : KismetExternalHttp.HttpAuthTokenRequest) (w : world) :
  parse_HttpAuthTokenRequest P in_content = Some rt ->
  has_transport (self w) = true ->
  let s := next_seqno (seqno (self w)) in
  let token := create_auth_token H (calls w) in
  handle_packet_http_auth_request P H handle_error in_seqno in_content w =
    (tt, mk_world (set_seqno s (self w))
           (calls w ++
            [httpd_create_auth "external";
             write_of (self w)
               (frame_of P H
                  (KismetExternal.mkCommand "HTTPAUTH" s
                     (serialize_HttpAuthToken P
                        (KismetExternalHttp.mkHttpAuthToken token))))])).
Proof.
  intros Hp Ht. cbv zeta.
  unfold handle_packet_http_auth_request. rewrite Hp.
  unfold bind at 1. unfold history at 1.
  unfold bind at 1. unfold invoke at 1.
  unfold bind at 1. unfold send_http_auth.
  rewrite send_packet_assigns by (auto; reflexivity).
  cbn [self calls]. unfold ret. rewrite <- app_assoc. reflexivity.
Qed.
End Proxy.

Lemma http_route_handler_parks_request_witness :
  let w := Fixture.fresh Fixture.on_tcp in
  has_transport (self w) = true
  /\ result (http_route_handler Fixture.codec Fixture.quiet_host
               Fixture.handle_error 100 "/x" "GET" [("a", "1")]) w = 0.
Proof.
  split; [reflexivity|].
  destruct (http_route_handler_parks_request Fixture.codec Fixture.quiet_host
              Fixture.handle_error 100 "/x" "GET" [("a", "1")]
              (Fixture.fresh Fixture.on_tcp) eq_refl) as [Hid _].
  exact Hid.
Defined.

Lemma http_session_removed_on_wake_witness :
  let w := Fixture.fresh Fixture.on_tcp in
  let handler :=
    http_route_handler Fixture.codec Fixture.quiet_host Fixture.handle_error
      100 "/x" "GET" [("a", "1")] in
  has_transport (self w) = true
  /\ keys_sorted (http_proxy_session_map (self w))
  /\ map_find Z.eqb (result handler w)
       (http_proxy_session_map
          (self (after (http_route_handler_wake (result handler w))
                   (after handler w)))) = None.
Proof.
  split; [reflexivity|]. split; [exact I|].
  destruct (http_session_removed_on_wake Fixture.codec Fixture.quiet_host
              Fixture.handle_error 100 "/x" "GET" [("a", "1")]
              (Fixture.fresh Fixture.on_tcp) eq_refl I)
    as (_ & _ & _ & Hnone & _).
  exact Hnone.
Defined.

Lemma http_auth_request_sends_token_witness :
  let w := Fixture.fresh Fixture.on_tcp in
  parse_HttpAuthTokenRequest Fixture.codec "a"
  = Some KismetExternalHttp.mkHttpAuthTokenRequest
  /\ has_transport (self w) = true
  /\ emitted (handle_packet_http_auth_request Fixture.codec
                Fixture.quiet_host Fixture.handle_error 1 "a") w
     = [httpd_create_auth "external";
        write_of (self w)
          (frame_of Fixture.codec Fixture.quiet_host
             (KismetExternal.mkCommand "HTTPAUTH" 1 "token"))].
Proof.
  split; [reflexivity|]. split; [reflexivity|].
  apply (emitted_of _ _ tt (set_seqno 1 Fixture.on_tcp)).
  exact (http_auth_request_sends_token Fixture.codec Fixture.quiet_host
           Fixture.handle_error 1 "a"
           KismetExternalHttp.mkHttpAuthTokenRequest
           (Fixture.fresh Fixture.on_tcp) eq_refl eq_refl).
Defined.

(** ** A read that brings no complete packet *)

Section ReadOn.
Variable H : host_services.
Variable handle_error : string -> M unit.
Variable handle_packet : M Z.

End ReadOn.

